(** * graceful: zero-downtime restart and graceful shutdown of an HTTP server

    A shallow embedding of [graceful.go] (package [graceful]) and the
    properties of its only exported function, [Run].

    [Run] is glue code: it wires an upgrade coordinator (tableflip), an actor
    group (oklog/run), the process' signals and an [http.Server] together.
    The embedding follows the source statement by statement in a small
    state-and-outcome monad.  What the source calls but does not define (the
    logger, the coordinator, the actor group, the HTTP server, os/signal) is
    modelled next to it, each model under a comment that says where it comes
    from. *)

From Stdlib Require Import ZArith List String Bool Lia DecimalString.
From Stdlib Require Import FunctionalExtensionality.
Import ListNotations.
Local Open Scope string_scope.
Local Open Scope Z_scope.

(* ===================================================================== *)
(** ** Values *)
(* ===================================================================== *)

(** A Go [error]: [None] is [nil], [Some msg] an error with that message. *)
Definition error := option string.

Definition is_nil (e : error) : bool :=
  match e with None => true | Some _ => false end.

(** [%v] / [%s] of an error, as the logger receives it. *)
Definition show (e : error) : string :=
  match e with None => "<nil>" | Some m => m end.

(** [%d] of an integer. *)
Definition string_of_Z (z : Z) : string := NilZero.string_of_int (Z.to_int z).

Inductive Signal := SIGHUP | SIGINT | SIGTERM.

(** The concurrent tasks [Run] creates: the goroutine of lines 30-40 and the
    three actors handed to [group.Add] (lines 51, 89 and 115). *)
Inductive task := HangupWatcher | ServerActor | SignalActor | ExitActor.

Definition task_eqb (a b : task) : bool :=
  match a, b with
  | HangupWatcher, HangupWatcher | ServerActor, ServerActor
  | SignalActor, SignalActor | ExitActor, ExitActor => true
  | _, _ => false
  end.

Inductive level := InfoLevel | ErrorLevel | FatalLevel.

(** Calls into the collaborators, as the trace records them. *)
Inductive call :=
| CNew (pidfile : string)              (* tableflip.New *)
| CListen (network addr : string)      (* upg.Fds.Listen *)
| CReady                               (* upg.Ready *)
| CUpgrade                             (* upg.Upgrade *)
| CStop                                (* upg.Stop *)
| CServe                               (* server.Serve *)
| CShutdown (deadline : option Z)      (* server.Shutdown(ctx) *)
| CClose                               (* server.Close *)
| CNotify (t : task) (sigs : list Signal)  (* signal.Notify *)
| CSignalStop                          (* signal.Stop(ch) *)
| CCloseChan (name : string).          (* close(c) *)

Inductive event :=
| Log (lvl : level) (format : string) (args : list string)
| Go (t : task)                        (* a goroutine starts running t *)
| Returned (t : task) (e : error)      (* an actor's run function returned e *)
| Interrupt (t : task) (e : error)     (* the group calls an actor's interrupt *)
| GroupReturn (e : error)              (* group.Run returns e *)
| Call (c : call).

(* ===================================================================== *)
(** ** State of the process and of its collaborators *)
(* ===================================================================== *)

Inductive conn_status := Active | Finished | ForceClosed.

(** An in-flight connection: the time (ns) it still needs, and what became
    of it. *)
Record conn := { need : Z; status : conn_status }.

(** [*http.Server], as far as [Run] uses it. *)
Record Server := {
  Addr : string;
  accepting : bool;        (* Serve is accepting on the listener *)
  inShutdown : bool;       (* Shutdown or Close has been called *)
  conns : list conn
}.

(** [*tableflip.Upgrader]: the upgrade coordinator. *)
Record Upgrader := {
  marker : bool;           (* the PID file is held *)
  replacement : bool;      (* a replacement process has been spawned *)
  exitC : bool;            (* the Exit channel has fired *)
  stopped : bool
}.

Inductive chan := Open | Closed.

Record state := {
  trace : list event;            (* oldest first *)
  now : Z;                       (* elapsed time, ns *)
  upg : option Upgrader;         (* the variable upg; None is a nil pointer *)
  server : Server;
  hup_notify : bool;             (* sig is subscribed to SIGHUP *)
  ch_notify : bool;              (* ch is subscribed to SIGINT, SIGTERM *)
  cancelInterrupt : chan;
  ch : chan
}.

Definition set_trace (f : list event -> list event) (s : state) : state :=
  {| trace := f (trace s); now := now s; upg := upg s; server := server s;
     hup_notify := hup_notify s; ch_notify := ch_notify s;
     cancelInterrupt := cancelInterrupt s; ch := ch s |}.

Definition set_now (t : Z) (s : state) : state :=
  {| trace := trace s; now := t; upg := upg s; server := server s;
     hup_notify := hup_notify s; ch_notify := ch_notify s;
     cancelInterrupt := cancelInterrupt s; ch := ch s |}.

Definition set_upg (u : option Upgrader) (s : state) : state :=
  {| trace := trace s; now := now s; upg := u; server := server s;
     hup_notify := hup_notify s; ch_notify := ch_notify s;
     cancelInterrupt := cancelInterrupt s; ch := ch s |}.

Definition set_server (v : Server) (s : state) : state :=
  {| trace := trace s; now := now s; upg := upg s; server := v;
     hup_notify := hup_notify s; ch_notify := ch_notify s;
     cancelInterrupt := cancelInterrupt s; ch := ch s |}.

Definition set_hup_notify (b : bool) (s : state) : state :=
  {| trace := trace s; now := now s; upg := upg s; server := server s;
     hup_notify := b; ch_notify := ch_notify s;
     cancelInterrupt := cancelInterrupt s; ch := ch s |}.

Definition set_ch_notify (b : bool) (s : state) : state :=
  {| trace := trace s; now := now s; upg := upg s; server := server s;
     hup_notify := hup_notify s; ch_notify := b;
     cancelInterrupt := cancelInterrupt s; ch := ch s |}.

Definition set_cancelInterrupt (c : chan) (s : state) : state :=
  {| trace := trace s; now := now s; upg := upg s; server := server s;
     hup_notify := hup_notify s; ch_notify := ch_notify s;
     cancelInterrupt := c; ch := ch s |}.

Definition set_ch (c : chan) (s : state) : state :=
  {| trace := trace s; now := now s; upg := upg s; server := server s;
     hup_notify := hup_notify s; ch_notify := ch_notify s;
     cancelInterrupt := cancelInterrupt s; ch := c |}.

(* ===================================================================== *)
(** ** The monad: state passing with four outcomes *)
(* ===================================================================== *)

(** How a piece of Go code can end: it returns a value, the process exits
    ([os.Exit], reached through [log.Fatalf]), the goroutine panics, or it
    blocks for ever. *)
Inductive outcome (A : Type) : Type :=
| Ret (a : A)
| Exit (code : Z)
| Panic (msg : string)
| Block.
Arguments Ret {A} a.
Arguments Exit {A} code.
Arguments Panic {A} msg.
Arguments Block {A}.

Definition M (A : Type) : Type := state -> outcome A * state.

Definition ret {A} (a : A) : M A := fun s => (Ret a, s).

Definition bind {A B} (m : M A) (k : A -> M B) : M B := fun s =>
  match m s with
  | (Ret a, s1) => k a s1
  | (Exit c, s1) => (Exit c, s1)
  | (Panic msg, s1) => (Panic msg, s1)
  | (Block, s1) => (Block, s1)
  end.

Declare Scope go_scope.
Delimit Scope go_scope with go.
Notation "x <- m ;; k" := (bind m (fun x => k))
  (at level 61, m at next level, right associativity) : go_scope.
Notation "m ;; k" := (bind m (fun _ => k))
  (at level 61, right associativity) : go_scope.
Local Open Scope go_scope.

Definition get : M state := fun s => (Ret s, s).
Definition modify (f : state -> state) : M unit := fun s => (Ret tt, f s).
Definition emit (e : event) : M unit := modify (set_trace (fun t => (t ++ [e])%list)).
Definition os_Exit {A} (code : Z) : M A := fun s => (Exit code, s).
Definition panic {A} (msg : string) : M A := fun s => (Panic msg, s).
Definition block {A} : M A := fun s => (Block, s).

Definition when (b : bool) (m : M unit) : M unit := if b then m else ret tt.

Definition nil_deref : string :=
  "invalid memory address or nil pointer dereference".

(** [defer d] in front of [body]: [d] runs when [body] returns or panics.
    It does not run when the process exits through [os.Exit], nor while
    [body] is blocked. *)
Definition defer {A} (d : M unit) (body : M A) : M A := fun s =>
  match body s with
  | (Ret a, s1) =>
      match d s1 with
      | (Ret _, s2) => (Ret a, s2)
      | (Exit c, s2) => (Exit c, s2)
      | (Panic msg, s2) => (Panic msg, s2)
      | (Block, s2) => (Block, s2)
      end
  | (Panic msg, s1) =>
      match d s1 with
      | (Ret _, s2) => (Panic msg, s2)
      | (Exit c, s2) => (Exit c, s2)
      | (Panic msg', s2) => (Panic msg', s2)
      | (Block, s2) => (Block, s2)
      end
  | (Exit c, s1) => (Exit c, s1)
  | (Block, s1) => (Block, s1)
  end.

(** [close(c)]: closing a closed channel panics. *)
Definition close_chan (name : string) (rd : state -> chan)
    (wr : chan -> state -> state) : M unit :=
  s <- get ;;
  match rd s with
  | Closed => panic "close of closed channel"
  | Open => emit (Call (CCloseChan name)) ;; modify (wr Closed)
  end.

(* ===================================================================== *)
(** ** The environment of one execution *)
(* ===================================================================== *)

(** What the group's blocked run functions can be woken by. *)
Inductive wakeup :=
| ServeReturned (e : error)      (* server.Serve(ln) returned e *)
| Received (sig : Signal)        (* case sig := <-ch *)
| Cancelled                      (* case <-cancelInterrupt *)
| ExitClosed.                    (* <-upg.Exit() *)

(** What makes the first run function return: the server stops serving with
    error [e], a termination signal arrives on [ch], or the coordinator's
    Exit fires because a successor became ready. *)
Inductive cause :=
| ServeFailed (e : error)
| Signalled (sig : Signal)
| Superseded.

Definition cause_task (c : cause) : task :=
  match c with
  | ServeFailed _ => ServerActor
  | Signalled _ => SignalActor
  | Superseded => ExitActor
  end.

Definition cause_wakeup (c : cause) : wakeup :=
  match c with
  | ServeFailed e => ServeReturned e
  | Signalled sig => Received sig
  | Superseded => ExitClosed
  end.

(** The error the trigger's run function returns (lines 55, 105, 124). *)
Definition cause_error (c : cause) : error :=
  match c with
  | ServeFailed e => e
  | Signalled _ => None
  | Superseded => None
  end.

(** Everything one execution of [Run] takes from outside: its arguments, the
    package variable [ShutdownTimeout], the answers of the collaborators and
    the scheduling choices. *)
Record World := {
  addr : string;                (* server.Addr *)
  pidfile : string;
  pid : Z;                      (* os.Getpid() *)
  ShutdownTimeout : Z;          (* time.Duration, ns *)
  inflight : list Z;            (* connections in flight when shutdown begins:
                                   the time each still needs *)
  new_err : error;              (* tableflip.New *)
  listen_err : error;           (* upg.Fds.Listen *)
  ready_err : error;            (* upg.Ready *)
  upgrades : list error;        (* upg.Upgrade, once per SIGHUP received
                                   before the group is triggered *)
  first : cause;                (* what triggers the group *)
  order : list task;            (* the order in which the group interrupts *)
  lnclose_err : error;          (* closing the listener, inside Shutdown *)
  close_err : error             (* server.Close *)
}.

Definition Second : Z := 1000000000.

(** [var ShutdownTimeout = 3 * time.Second] (line 16). *)
Definition default_ShutdownTimeout : Z := 3 * Second.

Definition new_conn (n : Z) : conn := {| need := n; status := Active |}.

(** The process as [Run] is entered. *)
Definition init (W : World) : state :=
  {| trace := []; now := 0; upg := None;
     server := {| Addr := addr W; accepting := false; inShutdown := false;
                  conns := map new_conn (inflight W) |};
     hup_notify := false; ch_notify := false;
     cancelInterrupt := Open; ch := Open |}.

(* ===================================================================== *)
(** ** The actor group (github.com/oklog/run) *)
(* ===================================================================== *)

(** An actor is the pair [(execute, interrupt)] given to [group.Add].  Each
    execute function of [Run] blocks exactly once (in [Serve], in the
    [select], on [<-upg.Exit()]), so it is given in three parts: what it does
    before it blocks, when its blocking call can return, and what it does
    from there to its [return]. *)
Record actor := {
  a_task : task;
  a_start : M unit;
  a_wait : state -> option wakeup;
  a_finish : wakeup -> M error;
  a_interrupt : error -> M unit
}.

Definition Group := list actor.

(** [group.Add(execute, interrupt)] appends. *)
Definition group_Add (g : Group) (a : actor) : Group := (g ++ [a])%list.

Definition registered (g : Group) : list task := map a_task g.

Definition find_actor (t : task) (g : Group) : option actor :=
  find (fun a => task_eqb (a_task a) t) g.

(** Every execute function is started on a goroutine of its own; each runs
    up to its blocking call. *)
Fixpoint start_all (g : Group) : M unit :=
  match g with
  | [] => ret tt
  | a :: g' => emit (Go (a_task a)) ;; a_start a ;; start_all g'
  end.

(** The rest of an execute function, from the return of its blocking call. *)
Definition finish (a : actor) (w : wakeup) : M error :=
  e <- a_finish a w ;;
  emit (Returned (a_task a) e) ;;
  ret e.

(** The group calls the interrupt functions with the trigger's error, in the
    order [ord]. *)
Fixpoint interrupt_all (g : Group) (ord : list task) (e : error) : M unit :=
  match ord with
  | [] => ret tt
  | t :: ord' =>
      match find_actor t g with
      | Some a => emit (Interrupt t e) ;; a_interrupt a e
      | None => ret tt
      end ;;
      interrupt_all g ord' e
  end.

(** The group waits for every other execute function to return, and drops
    what they return.  One that is still blocked blocks the group. *)
Fixpoint join_all (trig : task) (g : Group) : M unit :=
  match g with
  | [] => ret tt
  | a :: g' =>
      (if task_eqb (a_task a) trig then ret tt
       else s <- get ;;
            match a_wait a s with
            | None => block
            | Some w => _ <- finish a w ;; ret tt
            end) ;;
      join_all trig g'
  end.

(** Modelled from the spec: [run.Group.Run] of github.com/oklog/run, which is
    not part of this repository's sources.  Section 4.1: every run function is
    executed concurrently; the first to return, with error [e], is the
    trigger; every actor's [interrupt(e)] is then invoked (in an order the
    spec leaves open: [ord]); the group waits for all run functions to have
    returned and returns [e]; with no actor it returns nil.  [background] is
    what the rest of the process does between the start and the trigger. *)
Definition group_Run (g : Group) (background : M unit)
    (trig : task) (w : wakeup) (ord : list task) : M error :=
  match g with
  | [] => emit (GroupReturn None) ;; ret None
  | _ =>
      start_all g ;;
      background ;;
      match find_actor trig g with
      | None => block
      | Some a =>
          e <- finish a w ;;
          interrupt_all g ord e ;;
          join_all trig g ;;
          emit (GroupReturn e) ;;
          ret e
      end
  end.

(** An order is valid for a group when it names every registered actor
    exactly once. *)
Definition count_task (t : task) (l : list task) : nat :=
  List.length (filter (task_eqb t) l).

Definition valid_order (g : Group) (ord : list task) : bool :=
  forallb (fun t => Nat.eqb (count_task t ord) (count_task t (registered g)))
          [HangupWatcher; ServerActor; SignalActor; ExitActor].

(* ===================================================================== *)
(** ** The collaborators *)
(* ===================================================================== *)

(** *** The logger (github.com/codechimp-io/log) *)

(** Modelled from the spec: the logger, which is not part of this
    repository's sources.  Section 1: a sink for leveled messages; section 7:
    a fatal error terminates the process immediately with a logged message.
    So [Fatalf] logs and then ends the process with [os.Exit(1)], as Go's
    loggers do, and the other levels only log. *)

Definition log_Info (msg : string) : M unit := emit (Log InfoLevel msg []).

Definition log_Infof (format : string) (args : list string) : M unit :=
  emit (Log InfoLevel format args).

Definition log_Errorf (format : string) (args : list string) : M unit :=
  emit (Log ErrorLevel format args).

Definition log_Fatalf {A} (format : string) (args : list string) : M A :=
  emit (Log FatalLevel format args) ;; os_Exit 1.

(** *** context *)

(** A context is its deadline, relative to the moment it is made; [None] is
    a context without deadline. *)
Definition context := option Z.

Definition context_Background : context := None.

Definition context_WithTimeout (parent : context) (d : Z) : context :=
  match parent with
  | None => Some d
  | Some p => Some (Z.min p d)
  end.

(** *** os/signal *)

Definition signal_Notify (t : task) (sigs : list Signal)
    (wr : bool -> state -> state) : M unit :=
  emit (Call (CNotify t sigs)) ;; modify (wr true).

Definition signal_Stop (wr : bool -> state -> state) : M unit :=
  emit (Call CSignalStop) ;; modify (wr false).

(** *** The upgrade coordinator (github.com/cloudflare/tableflip) *)

Definition fresh_Upgrader : Upgrader :=
  {| marker := true; replacement := false; exitC := false; stopped := false |}.

Definition stopped_Upgrader : Upgrader :=
  {| marker := false; replacement := false; exitC := true; stopped := true |}.

(** A method call on the pointer [upg]: a nil pointer panics. *)
Definition with_upg {A} (k : Upgrader -> M A) : M A :=
  s <- get ;;
  match upg s with
  | None => panic nil_deref
  | Some u => k u
  end.

(** Modelled from the spec: [Stop] of the upgrade coordinator, which is not
    part of this repository's sources.  Section 4.2: it releases all
    resources held by the coordinator (marker file, any replacement already
    spawned); it is idempotent, safe to call several times and after Exit has
    fired; Exit fires when the coordinator is explicitly stopped. *)
Definition upg_Stop : M unit :=
  with_upg (fun u =>
    emit (Call CStop) ;;
    if stopped u then ret tt else modify (set_upg (Some stopped_Upgrader))).

(** Whether [<-upg.Exit()] can return. *)
Definition exit_fired (s : state) : bool :=
  match upg s with
  | Some u => exitC u
  | None => false
  end.

(** A successor completed its [Ready]: Exit fires. *)
Definition supersede : M unit :=
  modify (fun s =>
    match upg s with
    | Some u => set_upg (Some {| marker := marker u; replacement := replacement u;
                                 exitC := true; stopped := stopped u |}) s
    | None => s
    end).

Section Process.

Variable W : World.

(** Modelled from the spec: [tableflip.New].  Section 7: the coordinator
    either is constructed, or cannot be and an error is returned with no
    coordinator (a nil pointer). *)
Definition tableflip_New (file : string) : M error :=
  emit (Call (CNew file)) ;;
  match new_err W with
  | None => modify (set_upg (Some fresh_Upgrader)) ;; ret None
  | Some m => modify (set_upg None) ;; ret (Some m)
  end.

(** Modelled from the spec: [upg.Fds.Listen(network, addr)], section 4.2,
    [Listen(address) -> (Listener, error)].  Reading the field [Fds]
    dereferences [upg]. *)
Definition Fds_Listen (network address : string) : M error :=
  with_upg (fun _ =>
    emit (Call (CListen network address)) ;; ret (listen_err W)).

(** Modelled from the spec: [upg.Ready()], section 4.2, [Ready() -> error]. *)
Definition upg_Ready : M error :=
  with_upg (fun _ => emit (Call CReady) ;; ret (ready_err W)).

(** Modelled from the spec: [upg.Upgrade()], section 4.2,
    [TriggerReplacement() -> error], with the result [r] of the attempt: a
    successful one has spawned the replacement, a failed one leaves the
    current generation as it is. *)
Definition upg_Upgrade (r : error) : M error :=
  with_upg (fun u =>
    emit (Call CUpgrade) ;;
    (if is_nil r
     then modify (set_upg (Some {| marker := marker u; replacement := true;
                                   exitC := exitC u; stopped := stopped u |}))
     else ret tt) ;;
    ret r).

(** *** The HTTP server (net/http)

    The network server is not part of this repository's sources.  Its model
    follows the spec.  Section 6, the consumed interface: [Serve],
    [Shutdown(deadline)], [Close]; section 4.4: shutdown stops accepting and
    waits for the connections in flight to finish, up to the deadline;
    closing force-closes what is still open.  A connection in flight finishes
    after the time it needs, which is finite; it has finished by a deadline
    [d] when it needs no more than [d]. *)

Definition ErrServerClosed : error := Some "http: Server closed".
Definition DeadlineExceeded : error := Some "context deadline exceeded".

Definition is_active (c : conn) : bool :=
  match status c with Active => true | _ => false end.

(** The time the slowest connection in flight still needs. *)
Definition longest (cs : list conn) : Z :=
  fold_right (fun c m => if is_active c then Z.max (need c) m else m) 0 cs.

Definition within (ctx : context) (n : Z) : bool :=
  match ctx with
  | None => true
  | Some d => n <=? d
  end.

(** A connection in flight finishes when the deadline lets it. *)
Definition drain (ctx : context) (c : conn) : conn :=
  if is_active c && within ctx (need c)
  then {| need := need c; status := Finished |}
  else c.

Definition force (c : conn) : conn :=
  if is_active c then {| need := need c; status := ForceClosed |} else c.

Definition set_flags (acc shut : bool) (s : state) : state :=
  set_server {| Addr := Addr (server s); accepting := acc; inShutdown := shut;
                conns := conns (server s) |} s.

Definition map_conns (f : conn -> conn) (s : state) : state :=
  set_server {| Addr := Addr (server s); accepting := accepting (server s);
                inShutdown := inShutdown (server s);
                conns := map f (conns (server s)) |} s.

(** Modelled from the spec: [server.Serve(ln)] starts accepting; it blocks
    until the server stops (section 4.4, run). *)
Definition server_Serve_start : M unit :=
  emit (Call CServe) ;;
  modify (set_flags true false).

(** Modelled from the spec: [server.Shutdown(ctx)] stops accepting, then
    waits until every connection has finished, or until the deadline of
    [ctx] (section 4.4); in the first case it returns the error of closing the
    listener, in the second the context's. *)
Definition server_Shutdown (ctx : context) : M error :=
  emit (Call (CShutdown ctx)) ;;
  s <- get ;;
  let l := longest (conns (server s)) in
  modify (set_flags false true) ;;
  modify (map_conns (drain ctx)) ;;
  if within ctx l
  then modify (set_now (now s + l)) ;; ret (lnclose_err W)
  else modify (set_now (now s + match ctx with Some d => Z.max 0 d | None => l end)) ;;
       ret DeadlineExceeded.

(** Modelled from the spec: [server.Close()] closes the listener and
    force-closes every connection still open (section 4.4). *)
Definition server_Close : M error :=
  emit (Call CClose) ;;
  modify (set_flags false true) ;;
  modify (map_conns force) ;;
  ret (close_err W).

(* ===================================================================== *)
(** ** graceful.go *)
(* ===================================================================== *)

(** Lines 33-39, the body of [for range sig], for one signal received; [r]
    is what this upgrade attempt yields. *)
Definition hangup_step (r : error) : M unit :=
  log_Info "Received SIGHUP, restaring gracefully..." ;;
  err <- upg_Upgrade r ;;
  when (negb (is_nil err)) (log_Errorf "Upgrade failed: %v" [show err]).

(** Lines 33-39, [for range sig], over the signals the loop has received
    from [sig] so far, each with what its upgrade attempt yields.  [sig] is
    never closed, so the loop does not end: when it returns here, the
    goroutine is waiting for the next signal. *)
Fixpoint hangup_loop (rs : list error) : M unit :=
  match rs with
  | [] => ret tt
  | r :: rs' => hangup_step r ;; hangup_loop rs'
  end.

(** Lines 30-32: the goroutine is started and subscribes to SIGHUP (it is
    taken to run up to its loop as soon as the [go] statement starts it). *)
Definition hangup_watcher : M unit :=
  emit (Go HangupWatcher) ;;
  signal_Notify HangupWatcher [SIGHUP] set_hup_notify.

(** Lines 57-77: the server actor's interrupt.  [defer cancel()] releases
    the timer of the context and has no effect that the model observes. *)
Definition server_interrupt (e : error) : M unit :=
  (if negb (is_nil e)
   then log_Fatalf "Failed to start HTTP Server: %v" [show e]
   else ret tt) ;;
  log_Info "Shutting HTTP Server down" ;;
  let ctx := context_Background in
  let ctx := if 0 <? ShutdownTimeout W
             then context_WithTimeout ctx (ShutdownTimeout W)
             else ctx in
  err <- server_Shutdown ctx ;;
  when (negb (is_nil err))
       (log_Errorf "Error shutting down HTTP server: %s" [show err]) ;;
  _ <- server_Close ;;
  ret tt.

(** Lines 51-78: the server actor. *)
Definition server_actor : actor :=
  {| a_task := ServerActor;
     a_start :=
       s <- get ;;
       log_Infof "Listening on [%s] with pid [%d]"
                 [Addr (server s); string_of_Z (pid W)] ;;
       server_Serve_start;
     a_wait := fun s =>
       if accepting (server s) then None else Some (ServeReturned ErrServerClosed);
     a_finish := fun w =>
       match w with
       | ServeReturned e => ret e
       | _ => ret None
       end;
     a_interrupt := server_interrupt |}.

(** Lines 89-111: the termination-signal actor. *)
Definition signal_actor : actor :=
  {| a_task := SignalActor;
     a_start := signal_Notify SignalActor [SIGINT; SIGTERM] set_ch_notify;
     a_wait := fun s =>
       match cancelInterrupt s with
       | Closed => Some Cancelled
       | Open => None
       end;
     a_finish := fun w =>
       match w with
       | Received SIGINT => log_Info "Received SIGINT, exiting gracefully..."
       | Received SIGTERM => log_Info "Received SIGTERM, exiting gracefully..."
       | _ => ret tt
       end ;;
       ret None;
     a_interrupt := fun _ =>
       close_chan "cancelInterrupt" cancelInterrupt set_cancelInterrupt ;;
       signal_Stop set_ch_notify |}.

(** Lines 115-129: the readiness/exit actor. *)
Definition exit_actor : actor :=
  {| a_task := ExitActor;
     a_start := _ <- upg_Ready ;; ret tt;
     a_wait := fun s => if exit_fired s then Some ExitClosed else None;
     a_finish := fun _ => ret None;
     a_interrupt := fun _ => upg_Stop |}.

(** The group as line 132 finds it. *)
Definition the_group : Group :=
  group_Add (group_Add (group_Add [] server_actor) signal_actor) exit_actor.

(** What the environment does to make the first run function return. *)
Definition occur (c : cause) : M unit :=
  match c with
  | ServeFailed _ => modify (set_flags false false)
  | Signalled _ => ret tt
  | Superseded => supersede
  end.

(** Between the start of the actors and the trigger: the hang-up watcher
    serves the SIGHUPs received, then the cause of the trigger occurs. *)
Definition until_trigger : M unit :=
  hangup_loop (upgrades W) ;;
  occur (first W).

(** Line 132: [group.Run()]. *)
Definition run_group : M error :=
  group_Run the_group until_trigger
            (cause_task (first W)) (cause_wakeup (first W)) (order W).

(** Lines 42-135. *)
Definition serve : M unit :=
  s <- get ;;
  err <- Fds_Listen "tcp" (Addr (server s)) ;;
  (if negb (is_nil err)
   then log_Fatalf "Error creating new listener: %s" [show err]
   else ret tt) ;;
  modify (set_cancelInterrupt Open) ;;
  modify (set_ch Open) ;;
  defer (close_chan "ch" ch set_ch)
    (err <- run_group ;;
     if negb (is_nil err)
     then log_Fatalf "Error starting service: %s" [show err]
     else ret tt).

(** Lines 30-135: what runs under [defer upg.Stop()]. *)
Definition Run_body : M unit :=
  hangup_watcher ;;
  serve.

(** [func Run(server *http.Server, pidfile string)]. *)
Definition Run : M unit :=
  err <- tableflip_New (pidfile W) ;;
  when (negb (is_nil err))
       (log_Errorf "Creating graceful upgrader failed: %v" [show err]) ;;
  defer upg_Stop Run_body.

End Process.

(** One execution: the outcome of [Run] and the final state. *)
Definition exec (W : World) : outcome unit * state := Run W (init W).

(* ===================================================================== *)
(** ** Reading a trace *)
(* ===================================================================== *)

Definition count (p : event -> bool) (tr : list event) : nat :=
  List.length (filter p tr).

Definition is_interrupt (t : task) (ev : event) : bool :=
  match ev with
  | Interrupt t' _ => task_eqb t t'
  | _ => false
  end.

Definition is_group_return (ev : event) : bool :=
  match ev with
  | GroupReturn _ => true
  | _ => false
  end.

Definition is_call (p : call -> bool) (ev : event) : bool :=
  match ev with
  | Call c => p c
  | _ => false
  end.

Definition is_upgrade (c : call) : bool :=
  match c with CUpgrade => true | _ => false end.

Definition is_stop (c : call) : bool :=
  match c with CStop => true | _ => false end.

Definition is_shutdown (c : call) : bool :=
  match c with CShutdown _ => true | _ => false end.

Definition is_close (c : call) : bool :=
  match c with CClose => true | _ => false end.


Definition is_listen (c : call) : bool :=
  match c with CListen _ _ => true | _ => false end.

Definition level_eqb (a b : level) : bool :=
  match a, b with
  | InfoLevel, InfoLevel | ErrorLevel, ErrorLevel | FatalLevel, FatalLevel => true
  | _, _ => false
  end.

Definition is_log (lvl : level) (ev : event) : bool :=
  match ev with
  | Log l _ _ => level_eqb lvl l
  | _ => false
  end.

(** The arguments of the log entries of one level, oldest first. *)
Definition logged_args (lvl : level) (tr : list event) : list string :=
  flat_map (fun ev => match ev with
                      | Log l _ args => if level_eqb lvl l then args else []
                      | _ => []
                      end) tr.

(** How often the group called the interrupt function of [t]. *)
Definition interrupts_of (t : task) (s : state) : nat :=
  count (is_interrupt t) (trace s).

(** How often [group.Run] returned. *)
Definition group_returns (s : state) : nat :=
  count is_group_return (trace s).

(** The value [group.Run] returned, if it did. *)
Definition group_result (s : state) : option error :=
  match filter is_group_return (trace s) with
  | GroupReturn e :: _ => Some e
  | _ => None
  end.

Definition calls (p : call -> bool) (s : state) : nat :=
  count (is_call p) (trace s).

(** The events that [s2] has after those of [s1]. *)
Definition since (s1 s2 : state) : list event :=
  skipn (List.length (trace s1)) (trace s2).

(** The trace up to the first return of [group.Run]. *)
Fixpoint until_return (tr : list event) : list event :=
  match tr with
  | [] => []
  | GroupReturn _ :: _ => []
  | ev :: tr' => ev :: until_return tr'
  end.

(** How often the group had called the interrupt function of [t] when
    [group.Run] returned. *)
Definition interrupts_before_return (t : task) (s : state) : nat :=
  count (is_interrupt t) (until_return (trace s)).

(** [s] with one more event. *)
Definition record (ev : event) (s : state) : state :=
  set_trace (fun t => (t ++ [ev])%list) s.

(** The upgrade attempts that failed. *)
Definition failures (rs : list error) : list error :=
  filter (fun r => negb (is_nil r)) rs.

(** The connections of a server by what became of them. *)
Definition force_closed (s : state) : list conn :=
  filter (fun c => match status c with ForceClosed => true | _ => false end)
         (conns (server s)).

Definition finished (s : state) : list conn :=
  filter (fun c => match status c with Finished => true | _ => false end)
         (conns (server s)).

(** The context the server actor's interrupt hands to [Shutdown]
    (lines 64-69). *)
Definition shutdown_ctx (W : World) : context :=
  if 0 <? ShutdownTimeout W
  then context_WithTimeout context_Background (ShutdownTimeout W)
  else context_Background.

(* ===================================================================== *)
(** ** The course of a run, written out *)
(* ===================================================================== *)

(** The functions of this section describe what the theorems below prove
    the code to do; the code is the section before. *)

(** What [Shutdown] returns in the server actor's interrupt. *)
Definition shutdown_err (W : World) : error :=
  if within (shutdown_ctx W) (longest (map new_conn (inflight W)))
  then lnclose_err W
  else DeadlineExceeded.

Definition setup_events (W : World) : list event :=
  [ Call (CNew (pidfile W));
    Go HangupWatcher; Call (CNotify HangupWatcher [SIGHUP]);
    Call (CListen "tcp" (addr W));
    Go ServerActor;
    Log InfoLevel "Listening on [%s] with pid [%d]" [addr W; string_of_Z (pid W)];
    Call CServe;
    Go SignalActor; Call (CNotify SignalActor [SIGINT; SIGTERM]);
    Go ExitActor; Call CReady ].

Definition hup_events (rs : list error) : list event :=
  flat_map (fun r =>
    Log InfoLevel "Received SIGHUP, restaring gracefully..." []
    :: Call CUpgrade
    :: (if is_nil r then [] else [Log ErrorLevel "Upgrade failed: %v" [show r]]))
    rs.

Definition trigger_events (c : cause) : list event :=
  match c with
  | ServeFailed e => [Returned ServerActor e]
  | Signalled SIGINT =>
      [Log InfoLevel "Received SIGINT, exiting gracefully..." [];
       Returned SignalActor None]
  | Signalled SIGTERM =>
      [Log InfoLevel "Received SIGTERM, exiting gracefully..." [];
       Returned SignalActor None]
  | Signalled SIGHUP => [Returned SignalActor None]
  | Superseded => [Returned ExitActor None]
  end.

(** What the interrupt function of [t] does when called with [e]. *)
Definition interrupt_events (W : World) (e : error) (t : task) : list event :=
  match t with
  | HangupWatcher => []
  | ServerActor =>
      Interrupt ServerActor e
      :: match e with
         | Some m => [Log FatalLevel "Failed to start HTTP Server: %v" [m]]
         | None =>
             Log InfoLevel "Shutting HTTP Server down" []
             :: Call (CShutdown (shutdown_ctx W))
             :: match shutdown_err W with
                | None => [Call CClose]
                | Some m =>
                    [Log ErrorLevel "Error shutting down HTTP server: %s" [m];
                     Call CClose]
                end
         end
  | SignalActor =>
      [Interrupt SignalActor e; Call (CCloseChan "cancelInterrupt");
       Call CSignalStop]
  | ExitActor => [Interrupt ExitActor e; Call CStop]
  end.

Definition join_events (c : cause) : list event :=
  flat_map (fun t =>
    if task_eqb t (cause_task c) then []
    else [Returned t match t with ServerActor => ErrServerClosed | _ => None end])
    [ServerActor; SignalActor; ExitActor].

(** The trace of a run whose trigger returned nil, up to the return of
    [group.Run]. *)
Definition graceful_prefix (W : World) : list event :=
  (setup_events W ++ hup_events (upgrades W) ++ trigger_events (first W)
   ++ flat_map (interrupt_events W None) (order W) ++ join_events (first W))%list.

(** The whole trace of such a run: the group returns nil, then the deferred
    calls run, last registered first. *)
Definition graceful_trace (W : World) : list event :=
  (graceful_prefix W
   ++ [GroupReturn None; Call (CCloseChan "ch"); Call CStop])%list.

(** The time the drain takes. *)
Definition drain_time (W : World) : Z :=
  let l := longest (map new_conn (inflight W)) in
  if within (shutdown_ctx W) l then l
  else match shutdown_ctx W with Some d => Z.max 0 d | None => l end.

(** The state in which such a run ends, with the trace [tr]. *)
Definition graceful_state (W : World) (tr : list event) : state :=
  {| trace := tr;
     now := drain_time W;
     upg := Some stopped_Upgrader;
     server := {| Addr := addr W; accepting := false; inShutdown := true;
                  conns := map force (map (drain (shutdown_ctx W))
                                          (map new_conn (inflight W))) |};
     hup_notify := true; ch_notify := false;
     cancelInterrupt := Closed; ch := Closed |}.

Definition graceful_end (W : World) : state :=
  graceful_state W (graceful_trace W).

(** The same run just before its last deferred call, [upg.Stop()]. *)
Definition before_deferred_Stop (W : World) : state :=
  graceful_state W
    (graceful_prefix W ++ [GroupReturn None; Call (CCloseChan "ch")])%list.

(** The interrupts the group gets to, up to the server actor's. *)
Fixpoint up_to_server (ord : list task) : list task :=
  match ord with
  | [] => []
  | ServerActor :: _ => [ServerActor]
  | t :: ord' => t :: up_to_server ord'
  end.

(** The trace of a run whose trigger returned the error [m]. *)
Definition fatal_trace (W : World) (m : string) : list event :=
  (setup_events W ++ hup_events (upgrades W) ++ [Returned ServerActor (Some m)]
   ++ flat_map (interrupt_events W (Some m)) (up_to_server (order W)))%list.

(** The orders that are valid for the group of [Run]. *)
Definition orders : list (list task) :=
  [ [ServerActor; SignalActor; ExitActor]; [ServerActor; ExitActor; SignalActor];
    [SignalActor; ServerActor; ExitActor]; [SignalActor; ExitActor; ServerActor];
    [ExitActor; ServerActor; SignalActor]; [ExitActor; SignalActor; ServerActor] ].

(** The coordinator after the hang-up watcher served the upgrades [rs]. *)
Definition spawned (rs : list error) (u : Upgrader) : Upgrader :=
  {| marker := marker u;
     replacement := replacement u || existsb is_nil rs;
     exitC := exitC u; stopped := stopped u |}.

(** Worlds that differ in one answer of the environment. *)
Definition with_ready_err (e : error) (W : World) : World :=
  {| addr := addr W; pidfile := pidfile W; pid := pid W;
     ShutdownTimeout := ShutdownTimeout W; inflight := inflight W;
     new_err := new_err W; listen_err := listen_err W; ready_err := e;
     upgrades := upgrades W; first := first W; order := order W;
     lnclose_err := lnclose_err W; close_err := close_err W |}.

Definition with_close_err (e : error) (W : World) : World :=
  {| addr := addr W; pidfile := pidfile W; pid := pid W;
     ShutdownTimeout := ShutdownTimeout W; inflight := inflight W;
     new_err := new_err W; listen_err := listen_err W; ready_err := ready_err W;
     upgrades := upgrades W; first := first W; order := order W;
     lnclose_err := lnclose_err W; close_err := e |}.

Definition with_lnclose_err (e : error) (W : World) : World :=
  {| addr := addr W; pidfile := pidfile W; pid := pid W;
     ShutdownTimeout := ShutdownTimeout W; inflight := inflight W;
     new_err := new_err W; listen_err := listen_err W; ready_err := ready_err W;
     upgrades := upgrades W; first := first W; order := order W;
     lnclose_err := e; close_err := close_err W |}.

(** A world to run examples in: the server on ":9000", two connections in
    flight, one SIGHUP whose upgrade fails, then SIGTERM. *)
Definition sample (c : cause) (timeout : Z) : World :=
  {| addr := ":9000"; pidfile := "/run/app.pid"; pid := 4242;
     ShutdownTimeout := timeout;
     inflight := [1 * Second; 5 * Second];
     new_err := None; listen_err := None; ready_err := None;
     upgrades := [Some "fork/exec: permission denied"];
     first := c;
     order := [ServerActor; SignalActor; ExitActor];
     lnclose_err := None; close_err := None |}.

(** The state the server actor's interrupt leaves when it is called with
    nil in the state [s]. *)
Definition drained (W : World) (s : state) : state :=
  let ctx := shutdown_ctx W in
  let l := longest (conns (server s)) in
  let err := if within ctx l then lnclose_err W else DeadlineExceeded in
  {| trace := (trace s
               ++ [Log InfoLevel "Shutting HTTP Server down" [];
                   Call (CShutdown ctx)]
               ++ match err with
                  | None => []
                  | Some m => [Log ErrorLevel "Error shutting down HTTP server: %s" [m]]
                  end
               ++ [Call CClose])%list;
     now := now s + (if within ctx l then l
                     else match ctx with Some d => Z.max 0 d | None => l end);
     upg := upg s;
     server := {| Addr := Addr (server s); accepting := false; inShutdown := true;
                  conns := map force (map (drain ctx) (conns (server s))) |};
     hup_notify := hup_notify s; ch_notify := ch_notify s;
     cancelInterrupt := cancelInterrupt s; ch := ch s |}.

(** A world in which the drain and the forced close answer [e] and [c]. *)
Definition with_shutdown_errs (e c : error) (W : World) : World :=
  with_lnclose_err e (with_close_err c W).

(** A world in which [server.Close] fails and nothing else does. *)
Definition close_fails : World :=
  {| addr := ":9000"; pidfile := "/run/app.pid"; pid := 4242;
     ShutdownTimeout := 0;
     inflight := [1 * Second];
     new_err := None; listen_err := None; ready_err := None;
     upgrades := [];
     first := Signalled SIGINT;
     order := [ServerActor; SignalActor; ExitActor];
     lnclose_err := None;
     close_err := Some "close tcp [::]:9000: use of closed network connection" |}.

(** A world in which the coordinator cannot be constructed. *)
Definition new_fails : World :=
  {| addr := ":9000"; pidfile := "/run/app.pid"; pid := 4242;
     ShutdownTimeout := default_ShutdownTimeout;
     inflight := [];
     new_err := Some "tableflip: only a single Upgrader allowed";
     listen_err := None; ready_err := None;
     upgrades := [];
     first := Signalled SIGTERM;
     order := [ServerActor; SignalActor; ExitActor];
     lnclose_err := None; close_err := None |}.

(** A world in which the server stops serving on its own, with an error. *)
Definition serve_fails (timeout : Z) : World :=
  sample (ServeFailed (Some "accept tcp [::]:9000: too many open files")) timeout.

(** The process of [W] while it serves: set up, the actors started. *)
Definition serving (W : World) : state :=
  {| trace := setup_events W; now := 0; upg := Some fresh_Upgrader;
     server := {| Addr := addr W; accepting := true; inShutdown := false;
                  conns := map new_conn (inflight W) |};
     hup_notify := true; ch_notify := true;
     cancelInterrupt := Open; ch := Open |}.

(** ** More ways to read a run *)


Definition is_signal_stop (c : call) : bool :=
  match c with CSignalStop => true | _ => false end.

Definition is_close_chan (name : string) (c : call) : bool :=
  match c with
  | CCloseChan n => String.eqb name n
  | _ => false
  end.

Definition is_any_interrupt (ev : event) : bool :=
  match ev with Interrupt _ _ => true | _ => false end.


(** A log entry with the format [f], at any level. *)
Definition has_format (f : string) (ev : event) : bool :=
  match ev with
  | Log _ f' _ => String.eqb f f'
  | _ => false
  end.

(** The trace before the first event that satisfies [p]. *)
Fixpoint before_first (p : event -> bool) (tr : list event) : list event :=
  match tr with
  | [] => []
  | ev :: tr' => if p ev then [] else ev :: before_first p tr'
  end.

(** Whether the coordinator has released what it holds. *)
Definition coordinator_stopped (s : state) : bool :=
  match upg s with
  | Some u => stopped u
  | None => false
  end.


(** How a run of [W] ends: by a panic when the coordinator cannot be
    constructed, by [os.Exit(1)] when the listener cannot be obtained or the
    trigger returns an error, by the return of [Run] otherwise. *)
Definition ending (W : World) : outcome unit :=
  match new_err W with
  | Some _ => Panic nil_deref
  | None =>
      match listen_err W with
      | Some _ => Exit 1
      | None =>
          match cause_error (first W) with
          | Some _ => Exit 1
          | None => Ret tt
          end
      end
  end.

(** The state in which a run ends whose listener cannot be obtained, with
    error [m]. *)
Definition listen_failed (W : World) (m : string) : state :=
  {| trace := [ Call (CNew (pidfile W));
                Go HangupWatcher; Call (CNotify HangupWatcher [SIGHUP]);
                Call (CListen "tcp" (addr W));
                Log FatalLevel "Error creating new listener: %s" [m] ];
     now := 0;
     upg := Some fresh_Upgrader;
     server := {| Addr := addr W; accepting := false; inShutdown := false;
                  conns := map new_conn (inflight W) |};
     hup_notify := true; ch_notify := false;
     cancelInterrupt := Open; ch := Open |}.


(** The world of [W] in which the group interrupts in the order [ord]. *)
Definition with_order (ord : list task) (W : World) : World :=
  {| addr := addr W; pidfile := pidfile W; pid := pid W;
     ShutdownTimeout := ShutdownTimeout W; inflight := inflight W;
     new_err := new_err W; listen_err := listen_err W; ready_err := ready_err W;
     upgrades := upgrades W; first := first W; order := ord;
     lnclose_err := lnclose_err W; close_err := close_err W |}.

(** A state without its trace. *)
Definition forget_trace (s : state) : state := set_trace (fun _ => []) s.

(** The reason a termination signal is logged with (lines 96-99). *)
Definition reason (sig : Signal) : string :=
  match sig with
  | SIGINT => "Received SIGINT, exiting gracefully..."
  | SIGTERM => "Received SIGTERM, exiting gracefully..."
  | SIGHUP => ""
  end.

(** What a graceful run logs at error level. *)
Definition error_log (W : World) : list string :=
  (map show (failures (upgrades W))
   ++ match shutdown_err W with Some m => [m] | None => [] end)%list.

(* ===================================================================== *)
(** * Properties *)
(* ===================================================================== *)

(** ** The monad *)

Lemma bind_ret {A B} (m : M A) (k : A -> M B) s a s1 :
  m s = (Ret a, s1) -> bind m k s = k a s1.
Proof. unfold bind. intros ->. reflexivity. Qed.

Lemma bind_inv {A B} (m : M A) (k : A -> M B) s b s2 :
  bind m k s = (Ret b, s2) ->
  exists a s1, m s = (Ret a, s1) /\ k a s1 = (Ret b, s2).
Proof.
  unfold bind. destruct (m s) as [[a| | |] s1]; try discriminate.
  intros H. exists a, s1. auto.
Qed.

(** ** Counting in traces *)

Lemma count_app p (a b : list event) :
  count p (a ++ b) = (count p a + count p b)%nat.
Proof. unfold count. rewrite filter_app, length_app. reflexivity. Qed.

Lemma count_hup_events p rs :
  (forall l f a, p (Log l f a) = false) -> p (Call CUpgrade) = false ->
  count p (hup_events rs) = 0%nat.
Proof.
  intros Hlog Hup. induction rs as [|r rs IH]; [reflexivity|].
  unfold hup_events in *. cbn [flat_map]. rewrite count_app, IH.
  unfold count. cbn [filter]. rewrite Hlog, Hup.
  destruct (is_nil r); cbn [filter]; rewrite ?Hlog; reflexivity.
Qed.

(** ** The hang-up watcher *)

Lemma set_trace_nil s : set_trace (fun t => (t ++ [])%list) s = s.
Proof. destruct s; unfold set_trace; simpl. rewrite app_nil_r. reflexivity. Qed.

Lemma spawned_nil u : spawned [] u = u.
Proof. destruct u; unfold spawned; simpl. rewrite orb_false_r. reflexivity. Qed.

(** One pass of the loop, on a coordinator that exists. *)
Lemma hangup_step_run r s u :
  upg s = Some u ->
  hangup_step r s =
  (Ret tt, set_upg (Some (spawned [r] u))
             (set_trace (fun t => (t ++ hup_events [r])%list) s)).
Proof.
  intros Hu. destruct s as [tr nw up sv hn cn ci c]. simpl in Hu. subst up.
  destruct u as [mk rp ex st].
  destruct r as [m|];
    cbv [hangup_step log_Info log_Errorf upg_Upgrade with_upg bind get emit
         modify when is_nil negb ret set_trace set_upg trace now upg server
         hup_notify ch_notify cancelInterrupt ch spawned existsb marker
         replacement exitC stopped hup_events flat_map show];
    rewrite ?orb_false_r, ?orb_true_r, <- ?app_assoc; reflexivity.
Qed.

(** The loop over the signals received so far. *)
Lemma hangup_loop_run rs : forall s u,
  upg s = Some u ->
  hangup_loop rs s =
  (Ret tt, set_upg (Some (spawned rs u))
             (set_trace (fun t => (t ++ hup_events rs)%list) s)).
Proof.
  induction rs as [|r rs IH]; intros s u Hu.
  - cbn [hangup_loop hup_events flat_map]. rewrite set_trace_nil, spawned_nil.
    destruct s; simpl in *; subst; reflexivity.
  - cbn [hangup_loop]. erewrite bind_ret by (apply hangup_step_run; eassumption).
    erewrite IH by reflexivity.
    destruct s as [tr nw up sv hn cn ci c]; destruct u as [mk rp ex st].
    simpl in Hu. subst up.
    unfold set_upg, set_trace, spawned, hup_events; cbn.
    rewrite <- !app_assoc. rewrite orb_false_r, orb_assoc.
    destruct (is_nil r); reflexivity.
Qed.

(** ** The orders of interruption *)

Lemma valid_order_cases W ord :
  valid_order (the_group W) ord = true -> In ord orders.
Proof.
  unfold valid_order, registered, the_group, group_Add; cbn.
  intros H.
  destruct ord as [|a [|b [|c [|d rest]]]];
    [ discriminate H
    | destruct a; discriminate H
    | destruct a, b; discriminate H
    | destruct a, b, c; try discriminate H; cbn; auto 10
    | ].
  exfalso.
  destruct a, b, c, d; cbn in H;
    repeat (apply andb_prop in H; destruct H as [? H]); discriminate.
Qed.

Lemma valid_order_count g ord t :
  valid_order g ord = true -> count_task t ord = count_task t (registered g).
Proof.
  unfold valid_order. cbn [forallb]. intros H.
  repeat (apply andb_prop in H; destruct H as [?H H]).
  destruct t; apply Nat.eqb_eq; assumption.
Qed.

(** ** Running the process *)

Arguments string_of_Z : simpl never.
Arguments longest : simpl never.
Arguments within : simpl never.

(** Evaluation of the monadic code; arithmetic, the connections' bookkeeping
    and the hang-up loop stay folded. *)
Ltac go_cbv :=
  cbv delta [exec Run Run_body serve run_group the_group group_Add]; cbn [app];
  cbv beta iota zeta delta
    [exec Run Run_body serve run_group until_trigger the_group group_Add group_Run
     start_all finish interrupt_all join_all find_actor find registered
     server_actor signal_actor exit_actor server_interrupt
     a_task a_start a_wait a_finish a_interrupt
     hangup_watcher occur supersede
     tableflip_New Fds_Listen upg_Ready upg_Stop with_upg exit_fired
     server_Serve_start server_Shutdown server_Close set_flags map_conns
     signal_Notify signal_Stop close_chan
     log_Info log_Infof log_Errorf log_Fatalf
     context_Background context_WithTimeout shutdown_ctx
     bind ret get modify emit os_Exit panic block when defer
     set_trace set_now set_upg set_server set_hup_notify set_ch_notify
     set_cancelInterrupt set_ch
     trace now upg server hup_notify ch_notify cancelInterrupt ch
     Addr accepting inShutdown conns marker replacement exitC stopped
     addr pidfile pid ShutdownTimeout inflight new_err listen_err ready_err
     upgrades first order lnclose_err close_err
     cause_task cause_wakeup cause_error task_eqb is_nil negb show
     init fresh_Upgrader stopped_Upgrader
     graceful_end graceful_state graceful_trace graceful_prefix setup_events
     trigger_events interrupt_events
     join_events flat_map shutdown_err drain_time fatal_trace up_to_server
     ErrServerClosed DeadlineExceeded spawned].

Ltac go_finish :=
  rewrite <- ?app_assoc; cbn [app]; rewrite ?Z.add_0_l; reflexivity.

Ltac go_graceful T infl lce :=
  go_cbv; cbn [app]; erewrite hangup_loop_run by reflexivity; go_cbv;
  destruct (0 <? T); go_cbv;
  match goal with
  | |- context [within ?c (longest (map new_conn infl))] =>
      destruct (within c (longest (map new_conn infl)))
  end;
  try destruct lce; go_cbv; go_finish.

Ltac go_fatal :=
  go_cbv; cbn [app]; erewrite hangup_loop_run by reflexivity; go_cbv;
  split; [reflexivity | go_finish].

(** A run whose setup succeeds and whose trigger returns nil: [Run] returns,
    in the state [graceful_end]. *)
Lemma graceful_run W :
  new_err W = None -> listen_err W = None ->
  valid_order (the_group W) (order W) = true ->
  cause_error (first W) = None ->
  exec W = (Ret tt, graceful_end W).
Proof.
  intros Hnew Hlisten Hord Hnil.
  apply valid_order_cases in Hord.
  destruct W as [ad pf pd T infl ne le re ups fst ord lce ce].
  cbn in Hnew, Hlisten, Hord, Hnil. subst ne le.
  destruct Hord as [<-|[<-|[<-|[<-|[<-|[<-|[]]]]]]];
    (destruct fst as [e|[]|]; cbn in Hnil; subst; go_graceful T infl lce).
Qed.

(** A run whose setup succeeds and whose trigger returns an error: the
    process exits with status 1 in the server actor's interrupt. *)
Lemma fatal_run W m :
  new_err W = None -> listen_err W = None ->
  valid_order (the_group W) (order W) = true ->
  first W = ServeFailed (Some m) ->
  fst (exec W) = Exit 1 /\ trace (snd (exec W)) = fatal_trace W m.
Proof.
  intros Hnew Hlisten Hord Hfirst.
  apply valid_order_cases in Hord.
  destruct W as [ad pf pd T infl ne le re ups fst ord lce ce].
  cbn in Hnew, Hlisten, Hord, Hfirst. subst ne le fst.
  destruct Hord as [<-|[<-|[<-|[<-|[<-|[<-|[]]]]]]];
    cbv [Datatypes.fst snd]; go_fatal.
Qed.

(** Only the server actor's run function can return an error. *)
Lemma cause_error_some c m :
  cause_error c = Some m -> c = ServeFailed (Some m).
Proof. destruct c; simpl; congruence. Qed.

(** ** More counting *)

Lemma since_app s tr' s' :
  trace s' = (trace s ++ tr')%list -> since s s' = tr'.
Proof.
  unfold since. intros ->. rewrite skipn_app, skipn_all, Nat.sub_diag. reflexivity.
Qed.

Lemma until_return_app a e b :
  count is_group_return a = 0%nat ->
  until_return (a ++ GroupReturn e :: b) = a.
Proof.
  induction a as [|ev a IH]; intros H; [reflexivity|].
  destruct ev; try discriminate H; cbn [app until_return]; f_equal; apply IH; exact H.
Qed.

Lemma count_flat_map_zero p (f : task -> list event) ord :
  (forall t, count p (f t) = 0%nat) -> count p (flat_map f ord) = 0%nat.
Proof.
  intros H. induction ord as [|t ord IH]; [reflexivity|].
  cbn [flat_map]. rewrite count_app, H, IH. reflexivity.
Qed.

Lemma count_flat_map_task p (f : task -> list event) t ord :
  (forall t', count p (f t') = if task_eqb t t' then 1%nat else 0%nat) ->
  count p (flat_map f ord) = count_task t ord.
Proof.
  intros H. induction ord as [|t' ord IH]; [reflexivity|].
  cbn [flat_map]. rewrite count_app, H, IH. unfold count_task. cbn [filter].
  destruct (task_eqb t t'); reflexivity.
Qed.

(** Each interrupt function is entered once per place in the order. *)
Lemma count_interrupt_events W e t ord :
  t <> HangupWatcher ->
  count (is_interrupt t) (flat_map (interrupt_events W e) ord) = count_task t ord.
Proof.
  intros Ht. apply count_flat_map_task. intros t'.
  destruct t, t'; try congruence; destruct e; cbn; try reflexivity;
    destruct (shutdown_err W); reflexivity.
Qed.

Lemma count_hangup_interrupts W e ord :
  count (is_interrupt HangupWatcher) (flat_map (interrupt_events W e) ord) = 0%nat.
Proof.
  apply count_flat_map_zero. intros t.
  destruct t; destruct e; cbn; try reflexivity; destruct (shutdown_err W); reflexivity.
Qed.

Lemma count_return_interrupt_events W e ord :
  count is_group_return (flat_map (interrupt_events W e) ord) = 0%nat.
Proof.
  apply count_flat_map_zero. intros t.
  destruct t; destruct e; cbn; try reflexivity; destruct (shutdown_err W); reflexivity.
Qed.

Lemma count_trigger_events p c :
  (forall l f a, p (Log l f a) = false) -> (forall t e, p (Returned t e) = false) ->
  count p (trigger_events c) = 0%nat.
Proof.
  intros Hl Hr. destruct c as [e|[]|]; unfold count; cbn; rewrite ?Hl, ?Hr; reflexivity.
Qed.

Lemma count_join_events p c :
  (forall t e, p (Returned t e) = false) -> count p (join_events c) = 0%nat.
Proof.
  intros Hr. destruct c as [e|sig|]; unfold count; cbn; rewrite ?Hr; reflexivity.
Qed.

Lemma graceful_trace_split W :
  graceful_trace W =
  (graceful_prefix W ++ GroupReturn None :: [Call (CCloseChan "ch"); Call CStop])%list.
Proof. reflexivity. Qed.

Lemma count_graceful_prefix_interrupt W t :
  t <> HangupWatcher ->
  count (is_interrupt t) (graceful_prefix W) = count_task t (order W).
Proof.
  intros Ht. unfold graceful_prefix. rewrite !count_app.
  rewrite count_hup_events, count_trigger_events, count_join_events, count_interrupt_events
    by (auto || reflexivity).
  change (count (is_interrupt t) (setup_events W)) with 0%nat. lia.
Qed.

Lemma count_graceful_prefix_return W :
  count is_group_return (graceful_prefix W) = 0%nat.
Proof.
  unfold graceful_prefix. rewrite !count_app.
  rewrite count_hup_events, count_trigger_events, count_join_events,
    count_return_interrupt_events by reflexivity.
  reflexivity.
Qed.

Lemma count_fatal_trace_return W m :
  count is_group_return (fatal_trace W m) = 0%nat.
Proof.
  unfold fatal_trace. rewrite !count_app.
  rewrite count_hup_events, count_return_interrupt_events by reflexivity.
  reflexivity.
Qed.

Lemma count_upgrades_hup_events rs :
  count (is_call is_upgrade) (hup_events rs) = List.length rs.
Proof.
  induction rs as [|r rs IH]; [reflexivity|].
  unfold hup_events in *. cbn [flat_map]. rewrite count_app, IH.
  destruct r; reflexivity.
Qed.

Lemma logged_args_app lvl a b :
  logged_args lvl (a ++ b) = (logged_args lvl a ++ logged_args lvl b)%list.
Proof. unfold logged_args. apply flat_map_app. Qed.

Lemma errors_hup_events rs :
  logged_args ErrorLevel (hup_events rs) = map show (failures rs).
Proof.
  induction rs as [|r rs IH]; [reflexivity|].
  unfold hup_events in *. cbn [flat_map]. rewrite logged_args_app, IH.
  destruct r; reflexivity.
Qed.

Lemma fatal_hup_events rs :
  count (is_log FatalLevel) (hup_events rs) = 0%nat.
Proof.
  induction rs as [|r rs IH]; [reflexivity|].
  unfold hup_events in *. cbn [flat_map]. rewrite count_app, IH.
  destruct r; reflexivity.
Qed.

Lemma count_fatal_graceful W :
  count (is_log FatalLevel) (graceful_trace W) = 0%nat.
Proof.
  unfold graceful_trace, graceful_prefix. rewrite !count_app.
  rewrite fatal_hup_events, count_join_events by reflexivity.
  rewrite count_flat_map_zero.
  - destruct (first W) as [e|[]|]; reflexivity.
  - intros t. destruct t; cbn; try reflexivity. destruct (shutdown_err W); reflexivity.
Qed.

Lemma group_result_graceful W : group_result (graceful_end W) = Some None.
Proof.
  unfold group_result, graceful_end, graceful_state, graceful_trace; cbn [trace].
  rewrite filter_app.
  assert (H : filter is_group_return (graceful_prefix W) = []).
  { apply length_zero_iff_nil. apply count_graceful_prefix_return. }
  rewrite H. reflexivity.
Qed.

Lemma group_result_fatal W m :
  trace (snd (exec W)) = fatal_trace W m -> group_result (snd (exec W)) = None.
Proof.
  intros H. unfold group_result. rewrite H.
  assert (E : filter is_group_return (fatal_trace W m) = []).
  { apply length_zero_iff_nil. apply count_fatal_trace_return. }
  rewrite E. reflexivity.
Qed.

Lemma valid_order_server W ord :
  valid_order (the_group W) ord = true -> In ServerActor ord.
Proof.
  intros H. apply valid_order_cases in H.
  destruct H as [<-|[<-|[<-|[<-|[<-|[<-|[]]]]]]]; cbn; auto.
Qed.

(** ** The group, whatever its actors *)

(** When [group.Run] returns, it returns what the trigger's run function
    returned (or nil, for the empty group). *)
Lemma group_Run_returns g bg trig w ord s v s' :
  group_Run g bg trig w ord s = (Ret v, s') ->
  (g = [] /\ v = None) \/
  exists a s0 s1, find_actor trig g = Some a /\ a_finish a w s0 = (Ret v, s1).
Proof.
  destruct g as [|a0 g'].
  - intros H. left. inversion H. auto.
  - intros H. right. unfold group_Run in H.
    apply bind_inv in H as (? & s1 & _ & H).
    apply bind_inv in H as (? & s2 & _ & H).
    destruct (find_actor trig (a0 :: g')) as [a|]; [|discriminate H].
    apply bind_inv in H as (e & s3 & Hfin & H).
    apply bind_inv in H as (? & s4 & _ & H).
    apply bind_inv in H as (? & s5 & _ & H).
    apply bind_inv in H as (? & s6 & _ & H).
    inversion H; subst.
    unfold finish in Hfin. apply bind_inv in Hfin as (e' & s7 & Hf & Hfin).
    apply bind_inv in Hfin as (? & s8 & _ & Hfin). inversion Hfin; subst.
    eauto.
Qed.

(** ** The server actor's interrupt *)

Lemma server_interrupt_nil W s :
  server_interrupt W None s = (Ret tt, drained W s).
Proof.
  destruct s as [tr nw up [ad ac sh cs] hn cn ci c].
  destruct W as [wa pf pd T infl ne le re ups fst ord lce ce].
  unfold drained. go_cbv.
  destruct (0 <? T); go_cbv;
    match goal with
    | |- context [within ?c (longest cs)] => destruct (within c (longest cs))
    end; try destruct lce; go_cbv; go_finish.
Qed.

Lemma longest_nonneg cs : 0 <= longest cs.
Proof.
  unfold longest. induction cs as [|c cs IH]; cbn [fold_right]; [lia|].
  destruct (is_active c); lia.
Qed.

Lemma longest_bound cs c :
  In c cs -> is_active c = true -> need c <= longest cs.
Proof.
  unfold longest. induction cs as [|c' cs IH]; cbn [fold_right In]; [tauto|].
  intros [->|Hin] Hact.
  - rewrite Hact. lia.
  - specialize (IH Hin Hact). destruct (is_active c'); lia.
Qed.

(** What the drain and the forced close together make of a connection. *)
Lemma settle_active ctx c :
  is_active c = true ->
  force (drain ctx c) =
  {| need := need c; status := if within ctx (need c) then Finished else ForceClosed |}.
Proof.
  intros Hact. unfold drain. rewrite Hact. cbn [andb].
  destruct (within ctx (need c)).
  - reflexivity.
  - unfold force. rewrite Hact. reflexivity.
Qed.

Lemma settle_inactive ctx c :
  is_active c = false -> force (drain ctx c) = c.
Proof.
  intros Hact. unfold drain. rewrite Hact. cbn [andb]. unfold force. rewrite Hact.
  reflexivity.
Qed.

Lemma shutdown_ctx_pos W :
  0 < ShutdownTimeout W -> shutdown_ctx W = Some (ShutdownTimeout W).
Proof.
  intros H. unfold shutdown_ctx. apply Z.ltb_lt in H. rewrite H. reflexivity.
Qed.

Lemma shutdown_ctx_nonpos W :
  ShutdownTimeout W <= 0 -> shutdown_ctx W = None.
Proof.
  intros H. unfold shutdown_ctx. apply Z.ltb_ge in H. rewrite H. reflexivity.
Qed.

Lemma filter_settle_none cs :
  filter (fun c => match status c with ForceClosed => true | _ => false end)
         (map force (map (drain None) cs)) =
  filter (fun c => match status c with ForceClosed => true | _ => false end) cs.
Proof.
  induction cs as [|c cs IH]; [reflexivity|].
  cbn [map filter]. rewrite IH.
  destruct (is_active c) eqn:Hact.
  - rewrite (settle_active None c Hact). cbn.
    unfold is_active in Hact. destruct (status c); try discriminate. reflexivity.
  - rewrite (settle_inactive None c Hact). reflexivity.
Qed.

(** ** Answers of the environment that the code drops *)

Lemma hangup_loop_app rs rs' s :
  fst (hangup_loop rs s) = Ret tt ->
  hangup_loop (rs ++ rs') s = hangup_loop rs' (snd (hangup_loop rs s)).
Proof.
  revert s. induction rs as [|r rs IH]; intros s H; [reflexivity|].
  cbn [app hangup_loop] in *. unfold bind in *.
  destruct (hangup_step r s) as [[[]| | |] s1]; cbn [fst snd] in *; try discriminate.
  apply IH. exact H.
Qed.

Lemma upg_Stop_returns s s1 :
  upg_Stop s = (Ret tt, s1) -> exists u, upg s1 = Some u /\ stopped u = true.
Proof.
  destruct s as [tr nw [[mk rp ex st]|] sv hn cn ci c]; [|discriminate].
  destruct st; cbv; intros H; inversion H; eauto.
Qed.

Lemma exit_start_drops_ready W r :
  a_start (exit_actor (with_ready_err r W)) = a_start (exit_actor W).
Proof.
  apply functional_extensionality. intros s.
  destruct s as [tr nw [u|] sv hn cn ci c]; reflexivity.
Qed.

Lemma exit_actor_ready W r : exit_actor (with_ready_err r W) = exit_actor W.
Proof.
  pose proof (exit_start_drops_ready W r) as H.
  unfold exit_actor in *. cbn [a_start] in H. rewrite H. reflexivity.
Qed.

(** [Run] does not depend on what [upg.Ready] answers. *)
Lemma Run_ready W r : Run (with_ready_err r W) = Run W.
Proof.
  unfold Run, Run_body, serve, run_group, the_group.
  rewrite exit_actor_ready. reflexivity.
Qed.

(** [Run] does not depend on what [server.Close] answers. *)
Lemma Run_close W c : Run (with_close_err c W) = Run W.
Proof.
  assert (H : server_interrupt (with_close_err c W) = server_interrupt W).
  { apply functional_extensionality. intros e. apply functional_extensionality. intros s.
    destruct e as [m|]; [reflexivity|].
    rewrite !server_interrupt_nil. reflexivity. }
  unfold Run, Run_body, serve, run_group, the_group, server_actor.
  rewrite H. reflexivity.
Qed.

(* ===================================================================== *)
(** * The claims *)
(* ===================================================================== *)

(** ** C1: the group interrupts every actor once *)

(** C1, as the code has it.  When the coordinator and the listener were
    obtained and the group interrupts in any valid order: if the run function
    that returns first returns nil, [Run] returns, [group.Run] has returned
    exactly once, and when it returned every registered actor's interrupt had
    been called exactly once (and is never called after).  If the first run
    function returns an error, the server actor's interrupt ends the process
    with exit status 1: [group.Run] does not return. *)
Theorem C1_every_interrupt_once W :
  new_err W = None -> listen_err W = None ->
  valid_order (the_group W) (order W) = true ->
  (cause_error (first W) = None ->
   fst (exec W) = Ret tt /\
   group_returns (snd (exec W)) = 1%nat /\
   forall t, In t (registered (the_group W)) ->
     interrupts_before_return t (snd (exec W)) = 1%nat /\
     interrupts_of t (snd (exec W)) = 1%nat) /\
  (forall m, cause_error (first W) = Some m ->
   fst (exec W) = Exit 1 /\
   group_returns (snd (exec W)) = 0%nat /\
   interrupts_of ServerActor (snd (exec W)) = 1%nat).
Proof.
  intros Hnew Hlisten Hord. split.
  - intros Hnil. rewrite (graceful_run W Hnew Hlisten Hord Hnil). cbn [fst snd].
    split; [reflexivity|]. split.
    + unfold group_returns, graceful_end, graceful_state; cbn [trace].
      rewrite graceful_trace_split, count_app, count_graceful_prefix_return. reflexivity.
    + intros t Ht.
      assert (Hne : t <> HangupWatcher) by (destruct Ht as [<-|[<-|[<-|[]]]]; discriminate).
      assert (Hone : count_task t (order W) = 1%nat).
      { rewrite (valid_order_count _ _ t Hord).
        destruct Ht as [<-|[<-|[<-|[]]]]; reflexivity. }
      unfold interrupts_before_return, interrupts_of, graceful_end, graceful_state;
        cbn [trace].
      rewrite graceful_trace_split. split.
      * rewrite until_return_app by apply count_graceful_prefix_return.
        rewrite count_graceful_prefix_interrupt by exact Hne. exact Hone.
      * rewrite count_app, count_graceful_prefix_interrupt by exact Hne.
        rewrite Hone. destruct t; reflexivity.
  - intros m Hm. apply cause_error_some in Hm.
    destruct (fatal_run W m Hnew Hlisten Hord Hm) as [Hexit Htrace].
    split; [exact Hexit|]. unfold group_returns, interrupts_of. rewrite Htrace. split.
    + apply count_fatal_trace_return.
    + unfold fatal_trace. rewrite !count_app.
      rewrite count_hup_events by reflexivity.
      rewrite count_interrupt_events by discriminate.
      apply valid_order_cases in Hord.
      destruct Hord as [<-|[<-|[<-|[<-|[<-|[<-|[]]]]]]]; reflexivity.
Qed.

(** C1 at a run that SIGTERM ends: [Run] returns, the group returned once,
    and the server actor had been interrupted once by then. *)
Lemma C1_witness :
  let W := sample (Signalled SIGTERM) default_ShutdownTimeout in
  fst (exec W) = Ret tt /\ group_returns (snd (exec W)) = 1%nat /\
  interrupts_before_return ServerActor (snd (exec W)) = 1%nat.
Proof.
  intros W.
  destruct (C1_every_interrupt_once W eq_refl eq_refl eq_refl) as (H & _).
  destruct (H eq_refl) as (H1 & H2 & H3).
  destruct (H3 ServerActor (or_introl eq_refl)) as (H4 & _).
  repeat split; assumption.
Defined.

(** C1 fails when the server actor triggers the group with an error: with
    the actors interrupted in registration order, the process exits in the
    server actor's interrupt, [group.Run] never returns, and the interrupts of
    the termination-signal actor and of the readiness/exit actor are never
    called. *)
Lemma C1_counterexample :
  let W := serve_fails default_ShutdownTimeout in
  In SignalActor (registered (the_group W)) /\
  In ExitActor (registered (the_group W)) /\
  fst (exec W) = Exit 1 /\
  group_returns (snd (exec W)) = 0%nat /\
  interrupts_of SignalActor (snd (exec W)) = 0%nat /\
  interrupts_of ExitActor (snd (exec W)) = 0%nat.
Proof. vm_compute. repeat split; auto. Qed.

(** ** C2: the group returns the trigger's error *)

(** C2, as the code has it.  Whatever the group's actors, their number and
    what the others return, [group.Run] returns nothing but what the
    trigger's run function returned.  In this program it returns, with nil,
    when the first run function returns nil; when that returns an error, the
    process exits with status 1 in the server actor's interrupt and
    [group.Run] returns nothing. *)
Theorem C2_group_returns_trigger_error W :
  new_err W = None -> listen_err W = None ->
  valid_order (the_group W) (order W) = true ->
  (cause_error (first W) = None ->
   fst (exec W) = Ret tt /\
   group_result (snd (exec W)) = Some (cause_error (first W))) /\
  (forall m, cause_error (first W) = Some m ->
   fst (exec W) = Exit 1 /\ group_result (snd (exec W)) = None) /\
  (forall g bg trig w ord s v s',
   group_Run g bg trig w ord s = (Ret v, s') ->
   (g = [] /\ v = None) \/
   exists a s0 s1, find_actor trig g = Some a /\ a_finish a w s0 = (Ret v, s1)).
Proof.
  intros Hnew Hlisten Hord. split; [|split].
  - intros Hnil. rewrite (graceful_run W Hnew Hlisten Hord Hnil), Hnil.
    split; [reflexivity | apply group_result_graceful].
  - intros m Hm. apply cause_error_some in Hm.
    destruct (fatal_run W m Hnew Hlisten Hord Hm) as [Hexit Htrace].
    split; [exact Hexit | exact (group_result_fatal W m Htrace)].
  - intros g bg trig w ord s v s'. apply group_Run_returns.
Qed.

(** C2 at a run that a ready successor ends: the group returns nil. *)
Lemma C2_witness :
  let W := sample Superseded default_ShutdownTimeout in
  fst (exec W) = Ret tt /\ group_result (snd (exec W)) = Some None.
Proof.
  intros W.
  destruct (C2_group_returns_trigger_error W eq_refl eq_refl eq_refl) as (H & _).
  exact (H eq_refl).
Defined.

(** C2 fails when the first run function returns an error: the server's
    [Serve] returns one, the process exits with status 1, and [group.Run]
    returns nothing. *)
Lemma C2_counterexample :
  let W := serve_fails default_ShutdownTimeout in
  cause_error (first W) = Some "accept tcp [::]:9000: too many open files" /\
  fst (exec W) = Exit 1 /\
  group_result (snd (exec W)) = None.
Proof. vm_compute. repeat split. Qed.

(** ** C3: a coordinator that cannot be constructed *)

(** C3, what the code does.  When [tableflip.New] fails, [Run] logs at error
    level and goes on: it starts the hang-up watcher, which subscribes to
    SIGHUP, and reaches [upg.Fds.Listen] with a nil coordinator.  The process
    ends there in a nil-pointer panic; nothing is logged at fatal level and
    no [os.Exit] is reached. *)
Theorem C3_new_failure_is_not_fatal W m :
  new_err W = Some m ->
  fst (exec W) = Panic nil_deref /\
  trace (snd (exec W)) =
    [ Call (CNew (pidfile W));
      Log ErrorLevel "Creating graceful upgrader failed: %v" [m];
      Go HangupWatcher; Call (CNotify HangupWatcher [SIGHUP]) ] /\
  hup_notify (snd (exec W)) = true /\
  calls is_listen (snd (exec W)) = 0%nat.
Proof.
  intros Hnew.
  destruct W as [ad pf pd T infl ne le re ups fst ord lce ce].
  cbn in Hnew. subst ne. cbv [Datatypes.fst snd]. go_cbv.
  repeat split.
Qed.

(** C3 at a process that already has an Upgrader. *)
Lemma C3_witness :
  fst (exec new_fails) = Panic nil_deref /\
  count (is_log FatalLevel) (trace (snd (exec new_fails))) = 0%nat /\
  In (Go HangupWatcher) (trace (snd (exec new_fails))).
Proof.
  destruct (C3_new_failure_is_not_fatal new_fails _ eq_refl) as (H1 & H2 & _).
  split; [exact H1|]. rewrite H2. split; [reflexivity | cbn; auto].
Defined.

(** ** C4: the server actor's interrupt *)

(** C4, as the code has it.  Called with nil, the server actor's interrupt
    returns after it has stopped the server accepting and called [Shutdown]
    with the context of [ShutdownTimeout] and then [Close].  With a positive
    timeout it takes no longer than the timeout.  Every connection in flight
    ends finished if it needs no longer than the deadline allows, and
    force-closed otherwise; so one is force-closed only if the timeout is
    positive and shorter than what the connection needed.  Called with an
    error, the interrupt only logs it at fatal level and the process exits
    with status 1. *)
Theorem C4_interrupt_drains_when_trigger_nil W s :
  let s' := snd (server_interrupt W None s) in
  fst (server_interrupt W None s) = Ret tt /\
  accepting (server s') = false /\
  In (Call (CShutdown (shutdown_ctx W))) (since s s') /\
  In (Call CClose) (since s s') /\
  (0 < ShutdownTimeout W ->
   shutdown_ctx W = Some (ShutdownTimeout W) /\
   now s <= now s' <= now s + ShutdownTimeout W) /\
  conns (server s') = map (fun c => force (drain (shutdown_ctx W) c)) (conns (server s)) /\
  (forall c, In c (conns (server s)) -> is_active c = true ->
     force (drain (shutdown_ctx W) c) =
     {| need := need c;
        status := if within (shutdown_ctx W) (need c) then Finished else ForceClosed |}) /\
  (forall c, In c (conns (server s)) -> is_active c = true ->
     status (force (drain (shutdown_ctx W) c)) = ForceClosed ->
     0 < ShutdownTimeout W < need c) /\
  (forall m,
     server_interrupt W (Some m) s =
     (Exit 1, record (Log FatalLevel "Failed to start HTTP Server: %v" [m]) s)).
Proof.
  intros s'. subst s'. rewrite server_interrupt_nil. cbn [fst snd].
  split; [reflexivity|]. split; [reflexivity|]. split.
  { erewrite since_app by (unfold drained; cbn [trace]; reflexivity).
    cbn. auto. }
  split.
  { erewrite since_app by (unfold drained; cbn [trace]; reflexivity).
    apply in_or_app. right. apply in_or_app. right. cbn. auto. }
  split.
  { intros Hpos. split; [apply shutdown_ctx_pos; exact Hpos|].
    unfold drained; cbn [now]. rewrite (shutdown_ctx_pos W Hpos).
    pose proof (longest_nonneg (conns (server s))) as Hl.
    unfold within. destruct (longest (conns (server s)) <=? ShutdownTimeout W) eqn:E.
    - apply Z.leb_le in E. lia.
    - lia. }
  split.
  { unfold drained; cbn [server conns]. rewrite map_map. reflexivity. }
  split.
  { intros c _ Hact. apply settle_active. exact Hact. }
  split.
  { intros c _ Hact. rewrite (settle_active _ _ Hact). cbn [status].
    unfold shutdown_ctx, within, context_WithTimeout, context_Background.
    destruct (0 <? ShutdownTimeout W) eqn:E; [|discriminate].
    apply Z.ltb_lt in E.
    destruct (need c <=? ShutdownTimeout W) eqn:E'; [discriminate|].
    apply Z.leb_gt in E'. lia. }
  intros m. reflexivity.
Qed.

(** C4 at the default timeout of 3 s, with connections that need 1 s and
    5 s: the first finishes, the second is force-closed, after 3 s. *)
Lemma C4_witness :
  let W := sample (Signalled SIGTERM) default_ShutdownTimeout in
  conns (server (snd (server_interrupt W None (serving W)))) =
    [ {| need := 1 * Second; status := Finished |};
      {| need := 5 * Second; status := ForceClosed |} ] /\
  now (snd (server_interrupt W None (serving W))) <= 3 * Second.
Proof.
  intros W.
  destruct (C4_interrupt_drains_when_trigger_nil W (serving W))
    as (_ & _ & _ & _ & Hb & Hc & _).
  split.
  - rewrite Hc. reflexivity.
  - destruct (Hb eq_refl) as (_ & _ & H). exact H.
Defined.

(** C4 fails for a trigger error that is not nil: the server's [Serve]
    returns an error, the group calls the server actor's interrupt with it,
    and the process exits with status 1; neither [Shutdown] nor [Close] is
    called and the connections in flight are left as they were. *)
Lemma C4_counterexample :
  let W := serve_fails default_ShutdownTimeout in
  In (Interrupt ServerActor (Some "accept tcp [::]:9000: too many open files"))
     (trace (snd (exec W))) /\
  fst (exec W) = Exit 1 /\
  calls is_shutdown (snd (exec W)) = 0%nat /\
  calls is_close (snd (exec W)) = 0%nat /\
  conns (server (snd (exec W))) = map new_conn (inflight W).
Proof. vm_compute. repeat split; auto 20. Qed.

(** ** C5: a timeout that is not positive *)

(** C5, as the code has it.  With [ShutdownTimeout] zero or negative, the
    server actor's interrupt, called with nil, hands [Shutdown] a context
    without deadline and returns after the time the slowest connection
    needs, however long: every connection in flight has finished, none is
    left open, and the [Close] that follows force-closes none. *)
Theorem C5_no_deadline_when_timeout_not_positive W s :
  ShutdownTimeout W <= 0 ->
  let s' := snd (server_interrupt W None s) in
  fst (server_interrupt W None s) = Ret tt /\
  In (Call (CShutdown None)) (since s s') /\
  now s' = now s + longest (conns (server s)) /\
  (forall c, In c (conns (server s)) -> is_active c = true ->
     need c <= now s' - now s /\
     In {| need := need c; status := Finished |} (conns (server s'))) /\
  (forall c, In c (conns (server s')) -> is_active c = false) /\
  force_closed s' = force_closed s.
Proof.
  intros Hle s'. subst s'. rewrite server_interrupt_nil. cbn [fst snd].
  pose proof (shutdown_ctx_nonpos W Hle) as Hctx.
  split; [reflexivity|]. split.
  { erewrite since_app by (unfold drained; cbn [trace]; reflexivity).
    rewrite Hctx. cbn. auto. }
  split.
  { unfold drained; cbn [now]. rewrite Hctx. reflexivity. }
  split.
  { intros c Hin Hact. split.
    - unfold drained; cbn [now]. rewrite Hctx. unfold within.
      pose proof (longest_bound _ _ Hin Hact). lia.
    - unfold drained; cbn [server conns]. rewrite Hctx, map_map.
      apply in_map_iff. exists c. split; [|exact Hin].
      rewrite (settle_active None c Hact). reflexivity. }
  split.
  { unfold drained; cbn [server conns]. rewrite Hctx, map_map.
    intros c Hin. apply in_map_iff in Hin as (c0 & <- & _).
    destruct (is_active c0) eqn:Hact.
    - rewrite (settle_active None c0 Hact). reflexivity.
    - rewrite (settle_inactive None c0 Hact). exact Hact. }
  unfold force_closed, drained; cbn [server conns]. rewrite Hctx.
  apply filter_settle_none.
Qed.

(** C5 at timeout 0, with connections that need 1 s and 5 s: the interrupt
    takes 5 s and force-closes nothing. *)
Lemma C5_witness :
  let W := sample (Signalled SIGTERM) 0 in
  ShutdownTimeout W <= 0 /\
  now (snd (server_interrupt W None (serving W))) = 5 * Second /\
  force_closed (snd (server_interrupt W None (serving W))) = [].
Proof.
  intros W.
  assert (Hle : ShutdownTimeout W <= 0) by (cbn; lia).
  destruct (C5_no_deadline_when_timeout_not_positive W (serving W) Hle)
    as (_ & _ & Hn & _ & _ & Hf).
  split; [exact Hle|]. split.
  - rewrite Hn. reflexivity.
  - rewrite Hf. reflexivity.
Defined.

(** C5 fails for a trigger error that is not nil: with timeout 0 and
    connections in flight, the interrupt called with the error of [Serve]
    does not wait; the process exits at once, no time has passed and the
    connections have not finished. *)
Lemma C5_counterexample :
  let W := serve_fails 0 in
  ShutdownTimeout W <= 0 /\
  In (Interrupt ServerActor (Some "accept tcp [::]:9000: too many open files"))
     (trace (snd (exec W))) /\
  fst (exec W) = Exit 1 /\
  now (snd (exec W)) = 0 /\
  finished (snd (exec W)) = [] /\
  conns (server (snd (exec W))) = map new_conn (inflight W).
Proof. vm_compute. repeat split; auto 20. discriminate. Qed.

(** ** C6: errors of the shutdown *)

(** C6, as the code has it.  In a run whose trigger returned nil, whatever
    the drain and the forced close answer, [Run] returns and [group.Run]
    returns the trigger's error.  An error that [Shutdown] returns is logged
    at error level, and nothing is logged at fatal level.  What [Close]
    returns is dropped: the run is the same, trace included, whatever it is. *)
Theorem C6_shutdown_errors_not_escalated W :
  new_err W = None -> listen_err W = None ->
  valid_order (the_group W) (order W) = true ->
  cause_error (first W) = None ->
  (forall e c,
     fst (exec (with_shutdown_errs e c W)) = Ret tt /\
     group_result (snd (exec (with_shutdown_errs e c W))) = Some (cause_error (first W))) /\
  (forall m, shutdown_err W = Some m ->
     In (Log ErrorLevel "Error shutting down HTTP server: %s" [m])
        (trace (snd (exec W)))) /\
  count (is_log FatalLevel) (trace (snd (exec W))) = 0%nat /\
  (forall c, exec (with_close_err c W) = exec W).
Proof.
  intros Hnew Hlisten Hord Hnil. split; [|split; [|split]].
  - intros e c.
    rewrite (graceful_run (with_shutdown_errs e c W) Hnew Hlisten Hord Hnil), Hnil.
    split; [reflexivity | apply group_result_graceful].
  - intros m Hm. rewrite (graceful_run W Hnew Hlisten Hord Hnil). cbn [snd].
    unfold graceful_end, graceful_state, graceful_trace, graceful_prefix; cbn [trace].
    apply in_or_app. left. apply in_or_app. right. apply in_or_app. right.
    apply in_or_app. right. apply in_or_app. left.
    apply in_flat_map. exists ServerActor. split.
    + apply (valid_order_server W). exact Hord.
    + cbn. rewrite Hm. cbn. auto.
  - rewrite (graceful_run W Hnew Hlisten Hord Hnil). apply count_fatal_graceful.
  - intros c. unfold exec. rewrite Run_close. reflexivity.
Qed.

(** C6 at a run that SIGINT ends and in which closing the listener fails:
    [Run] returns and the group returns nil. *)
Lemma C6_witness :
  let W := with_shutdown_errs (Some "close tcp [::]:9000: bad file descriptor") None
                              (sample (Signalled SIGINT) 0) in
  fst (exec W) = Ret tt /\ group_result (snd (exec W)) = Some None.
Proof.
  intros W.
  destruct (C6_shutdown_errors_not_escalated (sample (Signalled SIGINT) 0)
              eq_refl eq_refl eq_refl eq_refl) as (H & _).
  exact (H (Some "close tcp [::]:9000: bad file descriptor") None).
Defined.

(** C6 fails for the forced close: [server.Close] is called once and
    returns an error, and the run logs nothing at error level (nor at fatal
    level). *)
Lemma C6_counterexample :
  close_err close_fails = Some "close tcp [::]:9000: use of closed network connection" /\
  calls is_close (snd (exec close_fails)) = 1%nat /\
  fst (exec close_fails) = Ret tt /\
  filter (is_log ErrorLevel) (trace (snd (exec close_fails))) = [] /\
  filter (is_log FatalLevel) (trace (snd (exec close_fails))) = [].
Proof. vm_compute. repeat split. Qed.

(** ** C7: the hang-up watcher *)

(** C7.  On a coordinator that exists, the loop of the hang-up watcher
    makes one call of [upg.Upgrade] for every SIGHUP it receives, one in each
    pass.  It logs the failures, in order, at error level and nothing at fatal
    level, and it never ends: after any signals, whatever their upgrades
    yielded, it is still subscribed and serves whatever signals follow, in
    the same way. *)
Theorem C7_one_upgrade_per_hangup rs s u :
  upg s = Some u ->
  let s' := snd (hangup_loop rs s) in
  fst (hangup_loop rs s) = Ret tt /\
  count (is_call is_upgrade) (since s s') = List.length rs /\
  (forall r, count (is_call is_upgrade) (since s (snd (hangup_step r s))) = 1%nat) /\
  logged_args ErrorLevel (since s s') = map show (failures rs) /\
  count (is_log FatalLevel) (since s s') = 0%nat /\
  hup_notify s' = hup_notify s /\
  (forall rs', hangup_loop (rs ++ rs') s = hangup_loop rs' s') /\
  (forall rs', fst (hangup_loop rs' s') = Ret tt).
Proof.
  intros Hu s'. subst s'.
  assert (Hsince : forall l, since s (snd (hangup_loop l s)) = hup_events l).
  { intros l. rewrite (hangup_loop_run l s u Hu). cbn [snd].
    apply since_app. destruct s; reflexivity. }
  split; [rewrite (hangup_loop_run rs s u Hu); reflexivity|].
  split; [rewrite Hsince; apply count_upgrades_hup_events|].
  split.
  { intros r. rewrite (hangup_step_run r s u Hu). cbn [snd].
    erewrite since_app by (destruct s; reflexivity). destruct r; reflexivity. }
  split; [rewrite Hsince; apply errors_hup_events|].
  split; [rewrite Hsince; apply fatal_hup_events|].
  split; [rewrite (hangup_loop_run rs s u Hu); destruct s; reflexivity|].
  split.
  { intros rs'. apply hangup_loop_app. rewrite (hangup_loop_run rs s u Hu). reflexivity. }
  intros rs'. rewrite (hangup_loop_run rs s u Hu). cbn [snd].
  erewrite hangup_loop_run by (destruct s; reflexivity). reflexivity.
Qed.

(** C7 at three SIGHUPs, the first and the last of which fail to upgrade:
    three calls of [upg.Upgrade], two entries at error level. *)
Lemma C7_witness :
  let W := sample (Signalled SIGTERM) default_ShutdownTimeout in
  let rs := [Some "fork/exec ./app: permission denied"; None;
             Some "tableflip: upgrade in progress"] in
  fst (hangup_loop rs (serving W)) = Ret tt /\
  count (is_call is_upgrade) (since (serving W) (snd (hangup_loop rs (serving W)))) = 3%nat /\
  logged_args ErrorLevel (since (serving W) (snd (hangup_loop rs (serving W)))) =
    ["fork/exec ./app: permission denied"; "tableflip: upgrade in progress"].
Proof.
  intros W rs.
  destruct (C7_one_upgrade_per_hangup rs (serving W) fresh_Upgrader eq_refl)
    as (H1 & H2 & _ & H3 & _).
  split; [exact H1|]. split; [exact H2 | exact H3].
Defined.

(** ** C8: the hang-up watcher and the group *)

(** C8, as the code has it.  The group of [Run] has three actors: the
    server actor, the termination-signal actor and the readiness/exit actor.
    The hang-up watcher is not one of them: it is a goroutine started before
    the group exists.  In a run whose trigger returned nil, it was started
    before [group.Run] returned, no interrupt of it is ever called, and it is
    still subscribed to SIGHUP when [Run] returns.  The signal watcher that is
    an actor is the one for SIGINT and SIGTERM: its interrupt had been called
    once when [group.Run] returned, and it is no longer subscribed. *)
Theorem C8_hangup_watcher_is_no_actor W :
  new_err W = None -> listen_err W = None ->
  valid_order (the_group W) (order W) = true ->
  cause_error (first W) = None ->
  registered (the_group W) = [ServerActor; SignalActor; ExitActor] /\
  ~ In HangupWatcher (registered (the_group W)) /\
  fst (exec W) = Ret tt /\
  In (Go HangupWatcher) (until_return (trace (snd (exec W)))) /\
  interrupts_of HangupWatcher (snd (exec W)) = 0%nat /\
  hup_notify (snd (exec W)) = true /\
  interrupts_before_return SignalActor (snd (exec W)) = 1%nat /\
  ch_notify (snd (exec W)) = false.
Proof.
  intros Hnew Hlisten Hord Hnil.
  split; [reflexivity|]. split.
  { cbn. intros [H|[H|[H|[]]]]; discriminate H. }
  rewrite (graceful_run W Hnew Hlisten Hord Hnil). cbn [fst snd].
  split; [reflexivity|]. split.
  { unfold graceful_end, graceful_state; cbn [trace]. rewrite graceful_trace_split.
    rewrite until_return_app by apply count_graceful_prefix_return.
    unfold graceful_prefix, setup_events. cbn. auto. }
  split.
  { unfold interrupts_of, graceful_end, graceful_state, graceful_trace, graceful_prefix;
      cbn [trace].
    rewrite !count_app.
    rewrite count_hup_events, count_trigger_events, count_join_events,
      count_hangup_interrupts by reflexivity.
    reflexivity. }
  split; [reflexivity|]. split; [|reflexivity].
  unfold interrupts_before_return, graceful_end, graceful_state; cbn [trace].
  rewrite graceful_trace_split.
  rewrite until_return_app by apply count_graceful_prefix_return.
  rewrite count_graceful_prefix_interrupt by discriminate.
  rewrite (valid_order_count _ _ SignalActor Hord). reflexivity.
Qed.

(** C8 at a run that SIGINT ends. *)
Lemma C8_witness :
  let W := sample (Signalled SIGINT) default_ShutdownTimeout in
  ~ In HangupWatcher (registered (the_group W)) /\
  interrupts_of HangupWatcher (snd (exec W)) = 0%nat /\
  hup_notify (snd (exec W)) = true.
Proof.
  intros W.
  destruct (C8_hangup_watcher_is_no_actor W eq_refl eq_refl eq_refl eq_refl)
    as (_ & H1 & _ & _ & H2 & H3 & _).
  repeat split; assumption.
Defined.

(** C8 fails: in a run that SIGTERM ends, the hang-up watcher is not among
    the registered actors, [group.Run] returns without any interrupt of the
    watcher having been called, and the watcher is still subscribed. *)
Lemma C8_counterexample :
  let W := sample (Signalled SIGTERM) default_ShutdownTimeout in
  ~ In HangupWatcher (registered (the_group W)) /\
  fst (exec W) = Ret tt /\
  group_returns (snd (exec W)) = 1%nat /\
  interrupts_of HangupWatcher (snd (exec W)) = 0%nat /\
  hup_notify (snd (exec W)) = true.
Proof.
  split.
  - cbn. intros [H|[H|[H|[]]]]; discriminate H.
  - vm_compute. repeat split.
Qed.

(** ** C9: Stop twice *)

(** C9.  A second [Stop] returns and changes nothing but the record of the
    call itself, and [Stop] returns on a coordinator whose Exit has fired.
    In a run whose trigger returned nil this is what happens: when the
    deferred [upg.Stop()] runs, as the last step of [Run], [Stop] has been
    called once, by the readiness/exit actor's interrupt, and Exit has fired;
    the deferred call returns and leaves the state as it was. *)
Theorem C9_Stop_idempotent W :
  new_err W = None -> listen_err W = None ->
  valid_order (the_group W) (order W) = true ->
  cause_error (first W) = None ->
  (forall s s1, upg_Stop s = (Ret tt, s1) ->
     upg_Stop s1 = (Ret tt, record (Call CStop) s1)) /\
  (forall s, exit_fired s = true -> upg s <> None ->
     fst (upg_Stop s) = Ret tt) /\
  exists s1,
    exec W = (Ret tt, record (Call CStop) s1) /\
    calls is_stop s1 = 1%nat /\
    exit_fired s1 = true /\
    upg_Stop s1 = (Ret tt, record (Call CStop) s1).
Proof.
  intros Hnew Hlisten Hord Hnil. split; [|split].
  - intros s s1 H. apply upg_Stop_returns in H as (u & Hu & Hst).
    destruct s1 as [tr nw up sv hn cn ci c]. cbn in Hu. subst up.
    destruct u as [mk rp ex st]. cbn in Hst. subst st. reflexivity.
  - intros s _ Hu. destruct s as [tr nw [[mk rp ex []]|] sv hn cn ci c];
      [reflexivity | reflexivity | exfalso; apply Hu; reflexivity].
  - exists (before_deferred_Stop W).
    rewrite (graceful_run W Hnew Hlisten Hord Hnil).
    split; [|split; [|split]].
    + unfold record, set_trace, graceful_end, before_deferred_Stop, graceful_state,
        graceful_trace; cbn [trace now upg server hup_notify ch_notify cancelInterrupt ch].
      rewrite <- !app_assoc. reflexivity.
    + unfold calls, before_deferred_Stop, graceful_state; cbn [trace].
      unfold graceful_prefix. rewrite !count_app.
      rewrite count_hup_events, count_trigger_events, count_join_events by reflexivity.
      rewrite (count_flat_map_task _ _ ExitActor).
      * rewrite (valid_order_count _ _ ExitActor Hord). reflexivity.
      * intros t'. destruct t'; cbn; try reflexivity. destruct (shutdown_err W); reflexivity.
    + reflexivity.
    + reflexivity.
Qed.

(** C9 at a serving process: the second of two calls of [Stop] changes
    nothing but the trace. *)
Lemma C9_witness :
  let W := sample (Signalled SIGTERM) default_ShutdownTimeout in
  let s1 := snd (upg_Stop (serving W)) in
  upg_Stop s1 = (Ret tt, record (Call CStop) s1) /\
  exists s2, exec W = (Ret tt, record (Call CStop) s2) /\ calls is_stop s2 = 1%nat.
Proof.
  intros W s1.
  destruct (C9_Stop_idempotent W eq_refl eq_refl eq_refl eq_refl)
    as (H1 & _ & (s2 & H2 & H3 & _)).
  split.
  - apply (H1 (serving W)). reflexivity.
  - exists s2. split; assumption.
Defined.

(** ** C10: the error of Ready *)

(** C10.  What [upg.Ready] returns reaches nothing: the run function of the
    readiness/exit actor calls [Ready] and goes on, whatever the answer, and
    returns nil once Exit has fired; every execution of [Run] is the same
    whatever [Ready] answers.  When this actor triggers the group,
    [group.Run] returns nil. *)
Theorem C10_ready_error_dropped W r :
  new_err W = None -> listen_err W = None ->
  valid_order (the_group W) (order W) = true ->
  first W = Superseded ->
  (forall s, upg s <> None ->
     a_start (exit_actor (with_ready_err r W)) s = (Ret tt, record (Call CReady) s)) /\
  (forall w s, a_finish (exit_actor (with_ready_err r W)) w s = (Ret None, s)) /\
  exec (with_ready_err r W) = exec W /\
  fst (exec (with_ready_err r W)) = Ret tt /\
  group_result (snd (exec (with_ready_err r W))) = Some None.
Proof.
  intros Hnew Hlisten Hord Hfirst.
  assert (Hexec : exec (with_ready_err r W) = exec W).
  { unfold exec. rewrite Run_ready. reflexivity. }
  split.
  { intros s Hu. destruct s as [tr nw [u|] sv hn cn ci c]; [reflexivity|].
    exfalso. apply Hu. reflexivity. }
  split; [reflexivity|]. split; [exact Hexec|].
  rewrite Hexec, (graceful_run W Hnew Hlisten Hord) by (rewrite Hfirst; reflexivity).
  split; [reflexivity | apply group_result_graceful].
Qed.

(** C10 at a run in which [Ready] fails and a successor then takes over:
    the run is the one in which [Ready] succeeds, and the group returns nil. *)
Lemma C10_witness :
  let W := sample Superseded default_ShutdownTimeout in
  let r := Some "tableflip: can't notify parent process" in
  exec (with_ready_err r W) = exec W /\
  group_result (snd (exec (with_ready_err r W))) = Some None.
Proof.
  intros W r.
  destruct (C10_ready_error_dropped W r eq_refl eq_refl eq_refl eq_refl)
    as (_ & _ & H1 & _ & H2).
  split; [exact H1 | exact H2].
Defined.

(* ===================================================================== *)
(** * Beyond the claims *)
(* ===================================================================== *)

(** ** The setup *)

(** A run whose listener cannot be obtained. *)
Lemma listen_failure_run W m :
  new_err W = None -> listen_err W = Some m ->
  exec W = (Exit 1, listen_failed W m).
Proof.
  intros Hnew Hlisten.
  destruct W as [ad pf pd T infl ne le re ups fst ord lce ce].
  cbn in Hnew, Hlisten. subst ne le. unfold listen_failed. go_cbv. reflexivity.
Qed.

(** A run whose coordinator cannot be constructed. *)
Lemma new_failure_run W m :
  new_err W = Some m -> fst (exec W) = Panic nil_deref /\
  trace (snd (exec W)) =
    [ Call (CNew (pidfile W));
      Log ErrorLevel "Creating graceful upgrader failed: %v" [m];
      Go HangupWatcher; Call (CNotify HangupWatcher [SIGHUP]) ].
Proof.
  intros Hnew.
  destruct W as [ad pf pd T infl ne le re ups fst ord lce ce].
  cbn in Hnew. subst ne. cbv [Datatypes.fst snd]. go_cbv. split; reflexivity.
Qed.



(** X2.  How [Run] ends is decided by three answers and by nothing else:
    it panics when the coordinator cannot be constructed, exits with status 1
    when the listener cannot be obtained or the first run function returns an
    error, and returns otherwise.  It never blocks for ever. *)
Theorem run_ends_as_setup_and_trigger_decide W :
  valid_order (the_group W) (order W) = true ->
  fst (exec W) = ending W /\ fst (exec W) <> Block.
Proof.
  intros Hord.
  assert (H : fst (exec W) = ending W).
  { unfold ending.
    destruct (new_err W) as [m|] eqn:Hnew.
    { apply (new_failure_run W m Hnew). }
    destruct (listen_err W) as [m|] eqn:Hlisten.
    { rewrite (listen_failure_run W m Hnew Hlisten). reflexivity. }
    destruct (cause_error (first W)) as [m|] eqn:Hc.
    { apply cause_error_some in Hc. apply (fatal_run W m Hnew Hlisten Hord Hc). }
    rewrite (graceful_run W Hnew Hlisten Hord Hc). reflexivity. }
  split; [exact H|]. rewrite H. unfold ending.
  destruct (new_err W); [discriminate|].
  destruct (listen_err W); [discriminate|].
  destruct (cause_error (first W)); discriminate.
Qed.

(** X2 at a server that stops with an error, and at a run a successor ends. *)
Lemma run_ends_witness :
  fst (exec (serve_fails default_ShutdownTimeout)) = Exit 1 /\
  fst (exec (sample Superseded 0)) = Ret tt.
Proof.
  split.
  - exact (proj1 (run_ends_as_setup_and_trigger_decide
                    (serve_fails default_ShutdownTimeout) eq_refl)).
  - exact (proj1 (run_ends_as_setup_and_trigger_decide (sample Superseded 0) eq_refl)).
Defined.

(** ** What is never logged *)

Lemma format_hup_events f rs :
  String.eqb f "Received SIGHUP, restaring gracefully..." = false ->
  String.eqb f "Upgrade failed: %v" = false ->
  count (has_format f) (hup_events rs) = 0%nat.
Proof.
  intros H1 H2. induction rs as [|r rs IH]; [reflexivity|].
  unfold hup_events in *. cbn [flat_map]. rewrite count_app, IH.
  unfold count. destruct r; cbn [is_nil filter has_format]; rewrite ?H1, ?H2; reflexivity.
Qed.

Lemma no_group_error_graceful W :
  count (has_format "Error starting service: %s") (graceful_trace W) = 0%nat.
Proof.
  unfold graceful_trace, graceful_prefix. rewrite !count_app.
  rewrite format_hup_events, count_join_events by reflexivity.
  rewrite count_flat_map_zero.
  - destruct (first W) as [e|[]|]; reflexivity.
  - intros t. destruct t; cbn; try reflexivity. destruct (shutdown_err W); reflexivity.
Qed.

Lemma no_group_error_fatal W m :
  count (has_format "Error starting service: %s") (fatal_trace W m) = 0%nat.
Proof.
  unfold fatal_trace. rewrite !count_app.
  rewrite format_hup_events by reflexivity.
  rewrite count_flat_map_zero; [reflexivity|].
  intros t. destruct t; reflexivity.
Qed.

(** X3.  No execution of [Run] logs "Error starting service" (line 134):
    [group.Run] hands no error to [Run], because a trigger error ends the
    process in the server actor's interrupt first. *)
Theorem group_error_is_never_logged W :
  valid_order (the_group W) (order W) = true ->
  count (has_format "Error starting service: %s") (trace (snd (exec W))) = 0%nat.
Proof.
  intros Hord.
  destruct (new_err W) as [m|] eqn:Hnew.
  { destruct (new_failure_run W m Hnew) as [_ ->]. reflexivity. }
  destruct (listen_err W) as [m|] eqn:Hlisten.
  { rewrite (listen_failure_run W m Hnew Hlisten). reflexivity. }
  destruct (cause_error (first W)) as [m|] eqn:Hc.
  { apply cause_error_some in Hc.
    destruct (fatal_run W m Hnew Hlisten Hord Hc) as [_ ->]. apply no_group_error_fatal. }
  rewrite (graceful_run W Hnew Hlisten Hord Hc). apply no_group_error_graceful.
Qed.

(** X3 at a server that stops with an error. *)
Lemma group_error_witness :
  count (has_format "Error starting service: %s")
        (trace (snd (exec (serve_fails default_ShutdownTimeout)))) = 0%nat.
Proof.
  exact (group_error_is_never_logged (serve_fails default_ShutdownTimeout) eq_refl).
Defined.

(** ** The deferred calls *)




Lemma before_first_app p a ev b :
  count p a = 0%nat -> p ev = true ->
  before_first p (a ++ ev :: b) = a.
Proof.
  intros Ha Hev. induction a as [|x a IH]; cbn [app before_first].
  - rewrite Hev. reflexivity.
  - unfold count in Ha. cbn [filter] in Ha. destruct (p x); [discriminate Ha|].
    f_equal. apply IH. exact Ha.
Qed.

Lemma count_graceful_prefix_close_ch W :
  count (is_call (is_close_chan "ch")) (graceful_prefix W) = 0%nat.
Proof.
  unfold graceful_prefix. rewrite !count_app.
  rewrite count_hup_events, count_trigger_events, count_join_events by reflexivity.
  rewrite count_flat_map_zero; [reflexivity|].
  intros t. destruct t; cbn; try reflexivity. destruct (shutdown_err W); reflexivity.
Qed.

Lemma count_graceful_prefix_signal_stop W :
  count (is_call is_signal_stop) (graceful_prefix W) = count_task SignalActor (order W).
Proof.
  unfold graceful_prefix. rewrite !count_app.
  rewrite count_hup_events, count_trigger_events, count_join_events by reflexivity.
  rewrite (count_flat_map_task _ _ SignalActor).
  - change (count (is_call is_signal_stop) (setup_events W)) with 0%nat. lia.
  - intros t. destruct t; cbn; try reflexivity. destruct (shutdown_err W); reflexivity.
Qed.

(** X5.  In a run whose trigger returned nil, [ch] is unsubscribed with
    [signal.Stop(ch)] once and closed once, and it is closed only after it
    was unsubscribed and after [group.Run] returned: nothing can be sent on
    the closed channel. *)
Theorem channel_unsubscribed_before_closed W :
  new_err W = None -> listen_err W = None ->
  valid_order (the_group W) (order W) = true ->
  cause_error (first W) = None ->
  let tr := trace (snd (exec W)) in
  count (is_call (is_close_chan "ch")) tr = 1%nat /\
  count (is_call is_signal_stop) tr = 1%nat /\
  count (is_call is_signal_stop)
        (before_first (is_call (is_close_chan "ch")) tr) = 1%nat /\
  count is_group_return (before_first (is_call (is_close_chan "ch")) tr) = 1%nat /\
  ch (snd (exec W)) = Closed /\ ch_notify (snd (exec W)) = false.
Proof.
  intros Hnew Hlisten Hord Hnil tr. subst tr.
  rewrite (graceful_run W Hnew Hlisten Hord Hnil). cbn [snd].
  unfold graceful_end, graceful_state; cbn [trace ch ch_notify].
  assert (Hsplit : graceful_trace W =
    ((graceful_prefix W ++ [GroupReturn None])
      ++ Call (CCloseChan "ch") :: [Call CStop])%list).
  { unfold graceful_trace. rewrite <- app_assoc. reflexivity. }
  assert (Hone : count_task SignalActor (order W) = 1%nat).
  { rewrite (valid_order_count _ _ SignalActor Hord). reflexivity. }
  assert (Hpre : count (is_call (is_close_chan "ch"))
                       (graceful_prefix W ++ [GroupReturn None]) = 0%nat).
  { rewrite count_app, count_graceful_prefix_close_ch. reflexivity. }
  rewrite Hsplit. rewrite before_first_app by (exact Hpre || reflexivity).
  rewrite !count_app, count_graceful_prefix_close_ch, count_graceful_prefix_signal_stop,
    count_graceful_prefix_return, Hone.
  repeat split.
Qed.

(** X5 at a run that SIGINT ends. *)
Lemma channel_unsubscribed_witness :
  let W := sample (Signalled SIGINT) default_ShutdownTimeout in
  count (is_call is_signal_stop)
        (before_first (is_call (is_close_chan "ch")) (trace (snd (exec W)))) = 1%nat /\
  ch (snd (exec W)) = Closed.
Proof.
  intros W.
  destruct (channel_unsubscribed_before_closed W eq_refl eq_refl eq_refl eq_refl)
    as (_ & _ & H1 & _ & H2 & _).
  split; assumption.
Defined.

(** ** The termination-signal actor *)

(** X6.  When SIGINT or SIGTERM ends a run, the signal is logged once, at
    info level, and before the group calls any interrupt; the three
    interrupts follow. *)
Theorem termination_signal_logged_before_interrupts W sig :
  new_err W = None -> listen_err W = None ->
  valid_order (the_group W) (order W) = true ->
  first W = Signalled sig -> sig <> SIGHUP ->
  let tr := trace (snd (exec W)) in
  count (has_format (reason sig)) tr = 1%nat /\
  In (Log InfoLevel (reason sig) []) tr /\
  count is_any_interrupt (before_first (has_format (reason sig)) tr) = 0%nat /\
  count is_any_interrupt tr = 3%nat.
Proof.
  intros Hnew Hlisten Hord Hfirst Hsig tr. subst tr.
  rewrite (graceful_run W Hnew Hlisten Hord) by (rewrite Hfirst; reflexivity).
  cbn [snd]. unfold graceful_end, graceful_state; cbn [trace].
  set (rest := (flat_map (interrupt_events W None) (order W) ++ join_events (first W)
                ++ [GroupReturn None; Call (CCloseChan "ch"); Call CStop])%list).
  assert (Hsplit : graceful_trace W =
    ((setup_events W ++ hup_events (upgrades W))
      ++ Log InfoLevel (reason sig) [] :: Returned SignalActor None :: rest)%list).
  { unfold graceful_trace, graceful_prefix, rest. rewrite Hfirst.
    rewrite <- !app_assoc. destruct sig; [congruence| |]; reflexivity. }
  assert (Hints : count is_any_interrupt rest = 3%nat).
  { unfold rest. rewrite !count_app, count_join_events by reflexivity.
    apply valid_order_cases in Hord.
    destruct Hord as [<-|[<-|[<-|[<-|[<-|[<-|[]]]]]]];
      cbn; destruct (shutdown_err W); reflexivity. }
  assert (Hrest : count (has_format (reason sig)) rest = 0%nat).
  { unfold rest. rewrite !count_app, count_join_events by reflexivity.
    rewrite count_flat_map_zero.
    - destruct sig; reflexivity.
    - intros t. destruct t, sig; cbn; try reflexivity;
        destruct (shutdown_err W); reflexivity. }
  assert (Hpre : count (has_format (reason sig))
                       (setup_events W ++ hup_events (upgrades W)) = 0%nat).
  { rewrite count_app. rewrite format_hup_events by (destruct sig; [congruence| |]; reflexivity).
    destruct sig; reflexivity. }
  assert (Hself : has_format (reason sig) (Log InfoLevel (reason sig) []) = true).
  { destruct sig; reflexivity. }
  rewrite Hsplit. rewrite before_first_app by assumption.
  split.
  { rewrite count_app, Hpre. unfold count in *. cbn [filter]. rewrite Hself.
    cbn [filter has_format List.length]. rewrite Hrest. reflexivity. }
  split; [apply in_or_app; right; left; reflexivity|].
  split.
  { rewrite count_app, count_hup_events by reflexivity. reflexivity. }
  rewrite !count_app, count_hup_events by reflexivity.
  unfold count in *. cbn [filter setup_events is_any_interrupt List.length].
  rewrite Hints. reflexivity.
Qed.

(** X6 at SIGTERM. *)
Lemma termination_signal_witness :
  let W := sample (Signalled SIGTERM) default_ShutdownTimeout in
  In (Log InfoLevel "Received SIGTERM, exiting gracefully..." []) (trace (snd (exec W))) /\
  count is_any_interrupt
    (before_first (has_format "Received SIGTERM, exiting gracefully...")
                  (trace (snd (exec W)))) = 0%nat.
Proof.
  intros W.
  assert (Hsig : SIGTERM <> SIGHUP) by discriminate.
  destruct (termination_signal_logged_before_interrupts W SIGTERM
              eq_refl eq_refl eq_refl eq_refl Hsig) as (_ & H1 & H2 & _).
  split; assumption.
Defined.

(** X7.  The termination-signal actor's interrupt can be called once: a
    call that returns has closed [cancelInterrupt], which releases the run
    function, and unsubscribed [ch]; a second call panics on the closed
    channel. *)
Theorem signal_interrupt_twice_panics e e' s s1 :
  a_interrupt signal_actor e s = (Ret tt, s1) ->
  cancelInterrupt s = Open /\
  cancelInterrupt s1 = Closed /\
  ch_notify s1 = false /\
  a_wait signal_actor s1 = Some Cancelled /\
  a_interrupt signal_actor e' s1 = (Panic "close of closed channel", s1).
Proof.
  destruct s as [tr nw up sv hn cn [|] c]; cbv; intros H; inversion H; subst.
  repeat split.
Qed.

(** X7 at a serving process. *)
Lemma signal_interrupt_witness :
  let W := sample (Signalled SIGTERM) default_ShutdownTimeout in
  let s1 := snd (a_interrupt signal_actor None (serving W)) in
  a_interrupt signal_actor None s1 = (Panic "close of closed channel", s1).
Proof.
  intros W s1.
  destruct (signal_interrupt_twice_panics None None (serving W) s1 eq_refl)
    as (_ & _ & _ & _ & H).
  exact H.
Defined.

(** ** What a graceful run logs and leaves *)

Lemma errors_interrupt_events W ord :
  In ord orders ->
  logged_args ErrorLevel (flat_map (interrupt_events W None) ord) =
  match shutdown_err W with Some m => [m] | None => [] end.
Proof.
  intros H. destruct H as [<-|[<-|[<-|[<-|[<-|[<-|[]]]]]]];
    cbn; destruct (shutdown_err W); reflexivity.
Qed.

Lemma errors_graceful_trace W :
  In (order W) orders ->
  logged_args ErrorLevel (graceful_trace W) = error_log W.
Proof.
  intros Hord. unfold graceful_trace, graceful_prefix.
  rewrite !logged_args_app, errors_hup_events.
  rewrite (errors_interrupt_events W (order W) Hord).
  unfold error_log.
  assert (Ht : logged_args ErrorLevel (trigger_events (first W)) = []).
  { destruct (first W) as [e|[]|]; reflexivity. }
  assert (Hj : logged_args ErrorLevel (join_events (first W)) = []).
  { destruct (first W) as [e|sig|]; reflexivity. }
  rewrite Ht, Hj. cbn [setup_events logged_args flat_map app level_eqb].
  rewrite !app_nil_r. reflexivity.
Qed.






(** ** The drain *)

Lemma longest_le cs T :
  0 <= T -> (forall c, In c cs -> is_active c = true -> need c <= T) ->
  longest cs <= T.
Proof.
  intros HT. unfold longest. induction cs as [|c cs IH]; intros H; cbn [fold_right]; [lia|].
  assert (IH' := IH (fun c' Hin => H c' (or_intror Hin))).
  destruct (is_active c) eqn:Hact; [|exact IH'].
  pose proof (H c (or_introl eq_refl) Hact). lia.
Qed.

(** X10.  With a positive timeout that every connection in flight can
    meet, the server actor's interrupt does not wait for the deadline: it
    returns when the slowest connection has finished, force-closes none, and
    logs at error level only the error of closing the listener, if any. *)
Theorem interrupt_returns_when_drained W s :
  0 < ShutdownTimeout W ->
  (forall c, In c (conns (server s)) -> is_active c = true ->
     need c <= ShutdownTimeout W) ->
  let s' := snd (server_interrupt W None s) in
  now s' = now s + longest (conns (server s)) /\
  force_closed s' = force_closed s /\
  (forall c, In c (conns (server s)) -> is_active c = true ->
     In {| need := need c; status := Finished |} (conns (server s'))) /\
  logged_args ErrorLevel (since s s') =
    match lnclose_err W with Some m => [m] | None => [] end.
Proof.
  intros Hpos Hall s'. subst s'. rewrite server_interrupt_nil. cbn [snd].
  pose proof (shutdown_ctx_pos W Hpos) as Hctx.
  assert (Hw : within (Some (ShutdownTimeout W)) (longest (conns (server s))) = true).
  { unfold within. apply Z.leb_le. apply longest_le; [lia | exact Hall]. }
  split.
  { unfold drained; cbn [now]. rewrite Hctx, Hw. reflexivity. }
  split.
  { unfold force_closed, drained; cbn [server conns]. rewrite Hctx.
    generalize Hall. generalize (conns (server s)). intros cs Hcs.
    induction cs as [|c cs IH]; [reflexivity|].
    cbn [map filter]. rewrite IH by (intros c' Hin; apply Hcs; right; exact Hin).
    destruct (is_active c) eqn:Hact.
    - rewrite (settle_active _ c Hact).
      assert (Hc : within (Some (ShutdownTimeout W)) (need c) = true).
      { unfold within. apply Z.leb_le. apply Hcs; [left; reflexivity | exact Hact]. }
      rewrite Hc. cbn [status].
      unfold is_active in Hact. destruct (status c); try discriminate. reflexivity.
    - rewrite (settle_inactive _ c Hact). reflexivity. }
  split.
  { intros c Hin Hact. unfold drained; cbn [server conns]. rewrite Hctx, map_map.
    apply in_map_iff. exists c. split; [|exact Hin].
    rewrite (settle_active _ c Hact).
    assert (Hc : within (Some (ShutdownTimeout W)) (need c) = true).
    { unfold within. apply Z.leb_le. apply Hall; assumption. }
    rewrite Hc. reflexivity. }
  erewrite since_app by (unfold drained; cbn [trace]; reflexivity).
  rewrite Hctx, Hw. destruct (lnclose_err W); reflexivity.
Qed.

(** X10 at a timeout of 10 s. *)
Lemma interrupt_returns_witness :
  let W := sample (Signalled SIGTERM) (10 * Second) in
  now (snd (server_interrupt W None (serving W))) = 5 * Second /\
  force_closed (snd (server_interrupt W None (serving W))) = [].
Proof.
  intros W.
  assert (Hall : forall c, In c (conns (server (serving W))) -> is_active c = true ->
                           need c <= ShutdownTimeout W).
  { intros c [<-|[<-|[]]] _; vm_compute; discriminate. }
  destruct (interrupt_returns_when_drained W (serving W) eq_refl Hall) as (H1 & H2 & _).
  split.
  - rewrite H1. reflexivity.
  - rewrite H2. reflexivity.
Defined.

(** X11.  With a positive timeout and a connection in flight that needs
    longer, the server actor's interrupt returns at the deadline, the
    connection is force-closed, and the only entry at error level is the
    deadline's. *)
Theorem interrupt_force_closes_at_deadline W s c :
  0 < ShutdownTimeout W ->
  In c (conns (server s)) -> is_active c = true -> ShutdownTimeout W < need c ->
  let s' := snd (server_interrupt W None s) in
  now s' = now s + ShutdownTimeout W /\
  In {| need := need c; status := ForceClosed |} (conns (server s')) /\
  logged_args ErrorLevel (since s s') = ["context deadline exceeded"].
Proof.
  intros Hpos Hin Hact Hlong s'. subst s'. rewrite server_interrupt_nil. cbn [snd].
  pose proof (shutdown_ctx_pos W Hpos) as Hctx.
  assert (Hw : within (Some (ShutdownTimeout W)) (longest (conns (server s))) = false).
  { unfold within. apply Z.leb_gt. pose proof (longest_bound _ _ Hin Hact). lia. }
  split.
  { unfold drained; cbn [now]. rewrite Hctx, Hw. lia. }
  split.
  { unfold drained; cbn [server conns]. rewrite Hctx, map_map.
    apply in_map_iff. exists c. split; [|exact Hin].
    rewrite (settle_active _ c Hact).
    assert (Hc : within (Some (ShutdownTimeout W)) (need c) = false).
    { unfold within. apply Z.leb_gt. exact Hlong. }
    rewrite Hc. reflexivity. }
  erewrite since_app by (unfold drained; cbn [trace]; reflexivity).
  rewrite Hctx, Hw. reflexivity.
Qed.

(** X11 at the default timeout, for the connection that needs 5 s. *)
Lemma interrupt_deadline_witness :
  let W := sample (Signalled SIGTERM) default_ShutdownTimeout in
  now (snd (server_interrupt W None (serving W))) = 3 * Second /\
  logged_args ErrorLevel (since (serving W) (snd (server_interrupt W None (serving W)))) =
    ["context deadline exceeded"].
Proof.
  intros W.
  destruct (interrupt_force_closes_at_deadline W (serving W) (new_conn (5 * Second))
              eq_refl (or_intror (or_introl eq_refl)) eq_refl eq_refl) as (H1 & _ & H2).
  split; [rewrite H1; reflexivity | exact H2].
Defined.

(** ** The hang-up watcher without a coordinator *)

(** X12.  When there is no coordinator ([upg] is nil), the first SIGHUP
    the watcher receives is logged and then panics the process at
    [upg.Upgrade()]; no upgrade is carried out. *)
Theorem hangup_without_coordinator_panics r rs s :
  upg s = None ->
  hangup_loop (r :: rs) s =
  (Panic nil_deref, record (Log InfoLevel "Received SIGHUP, restaring gracefully..." []) s) /\
  calls is_upgrade (snd (hangup_loop (r :: rs) s)) = calls is_upgrade s.
Proof.
  intros Hu. destruct s as [tr nw up sv hn cn ci c]. cbn in Hu. subst up.
  split; [reflexivity|].
  unfold calls; cbn. unfold count. rewrite filter_app. cbn. rewrite app_nil_r. reflexivity.
Qed.

(** X12 at the process in which [tableflip.New] failed. *)
Lemma hangup_without_coordinator_witness :
  fst (hangup_loop [None] (init new_fails)) = Panic nil_deref.
Proof.
  destruct (hangup_without_coordinator_panics None [] (init new_fails) eq_refl) as (H & _).
  exact (f_equal fst H).
Defined.

(** ** The interrupts *)

(** X13.  The three interrupts commute: in a run whose trigger returned
    nil, the order in which the group calls them changes neither how the run
    ends, nor the state it ends in (server, coordinator, channels, time), nor
    what is logged at error level. *)
Theorem interrupt_order_does_not_matter W ord :
  new_err W = None -> listen_err W = None ->
  valid_order (the_group W) (order W) = true ->
  valid_order (the_group W) ord = true ->
  cause_error (first W) = None ->
  fst (exec (with_order ord W)) = fst (exec W) /\
  forget_trace (snd (exec (with_order ord W))) = forget_trace (snd (exec W)) /\
  logged_args ErrorLevel (trace (snd (exec (with_order ord W)))) =
  logged_args ErrorLevel (trace (snd (exec W))).
Proof.
  intros Hnew Hlisten Hord Hord' Hnil.
  rewrite (graceful_run W Hnew Hlisten Hord Hnil).
  rewrite (graceful_run (with_order ord W) Hnew Hlisten Hord' Hnil).
  split; [reflexivity|]. split; [reflexivity|].
  cbn [snd]. unfold graceful_end, graceful_state; cbn [trace].
  rewrite (errors_graceful_trace W (valid_order_cases W _ Hord)).
  rewrite (errors_graceful_trace (with_order ord W) (valid_order_cases W _ Hord')).
  reflexivity.
Qed.

(** X13 at the reverse of the registration order. *)
Lemma interrupt_order_witness :
  let W := sample (Signalled SIGINT) default_ShutdownTimeout in
  forget_trace (snd (exec (with_order [ExitActor; SignalActor; ServerActor] W))) =
  forget_trace (snd (exec W)).
Proof.
  intros W.
  destruct (interrupt_order_does_not_matter W [ExitActor; SignalActor; ServerActor]
              eq_refl eq_refl eq_refl eq_refl eq_refl) as (_ & H & _).
  exact H.
Defined.

(** X14.  Each actor's interrupt releases the actor's own run function:
    called with nil on a process whose coordinator has not stopped and whose
    [cancelInterrupt] is open, it returns, and after it the run function can
    return; the server actor's returns the server-closed error, the other
    two return nil. *)
Theorem each_interrupt_unblocks_its_run W a s :
  In a (the_group W) ->
  upg s <> None -> coordinator_stopped s = false -> cancelInterrupt s = Open ->
  exists s1 w,
    a_interrupt a None s = (Ret tt, s1) /\
    a_wait a s1 = Some w /\
    fst (a_finish a w s1) =
      Ret (match a_task a with ServerActor => ErrServerClosed | _ => None end).
Proof.
  intros Hin Hu Hst Hc.
  destruct s as [tr nw [u|] sv hn cn ci c]; [|exfalso; apply Hu; reflexivity].
  cbn in Hc. subst ci. destruct u as [mk rp ex st]. cbn in Hst. subst st.
  destruct Hin as [<-|[<-|[<-|[]]]].
  - exists (drained W {| trace := tr; now := nw;
                         upg := Some {| marker := mk; replacement := rp;
                                        exitC := ex; stopped := false |};
                         server := sv;
                         hup_notify := hn; ch_notify := cn;
                         cancelInterrupt := Open; ch := c |}),
           (ServeReturned ErrServerClosed).
    cbn [a_interrupt server_actor]. rewrite server_interrupt_nil.
    split; [reflexivity|]. split; reflexivity.
  - eexists. exists Cancelled. split; [reflexivity|]. split; reflexivity.
  - eexists. exists ExitClosed. split; [reflexivity|]. split; reflexivity.
Qed.

(** X14 at the readiness/exit actor of a serving process. *)
Lemma each_interrupt_witness :
  let W := sample (Signalled SIGINT) default_ShutdownTimeout in
  exists s1 w, a_interrupt (exit_actor W) None (serving W) = (Ret tt, s1) /\
               a_wait (exit_actor W) s1 = Some w.
Proof.
  intros W.
  assert (Hu : upg (serving W) <> None) by discriminate.
  destruct (each_interrupt_unblocks_its_run W (exit_actor W) (serving W)
              (or_intror (or_intror (or_introl eq_refl))) Hu eq_refl eq_refl)
    as (s1 & w & H1 & H2 & _).
  exists s1, w. split; assumption.
Defined.
